(** * offchain: the parallel execution engine and the metadata pipeline

    A shallow embedding of [offchain/concurrency.py] and of
    [offchain/metadata/pipelines/metadata_pipeline.py].

    Python values that may raise are results ([Returned] / [Raised]);
    code that also logs or calls a collaborator runs in a writer monad
    over results, whose log is kept when an exception propagates. *)

From stdpp Require Import base numbers list strings gmap.

Local Open Scope string_scope.
Local Open Scope list_scope.
Local Open Scope Z_scope.

(** ** The fragment of the Python runtime the two modules rely on *)
Module Py.

(** An exception object: its class name and its message, [str(e)]. *)
Record exn := PyExc { exc_class : string; exc_msg : string }.

Definition Exception (msg : string) : exn := PyExc "Exception" msg.
Definition ValueError (msg : string) : exn := PyExc "ValueError" msg.
Definition IndexError (msg : string) : exn := PyExc "IndexError" msg.
Definition NameError (msg : string) : exn := PyExc "NameError" msg.

(** The outcome of evaluating an expression: a value or a raised exception. *)
Inductive result (A : Type) : Type :=
| Returned (a : A)
| Raised (e : exn).
Arguments Returned {A} a.
Arguments Raised {A} e.

Definition result_bind {A B} (r : result A) (k : A -> result B) : result B :=
  match r with
  | Returned a => k a
  | Raised e => Raised e
  end.

Definition result_map {A B} (f : A -> B) (r : result A) : result B :=
  result_bind r (fun a => Returned (f a)).

Definition returns {A} (r : result A) : bool :=
  match r with Returned _ => true | Raised _ => false end.

(** A computation that appends records of type [Ev] to a log and then
    returns or raises. *)
Definition M (Ev A : Type) : Type := (list Ev * result A)%type.

Definition ret {Ev A} (a : A) : M Ev A := ([], Returned a).
Definition raise {Ev A} (e : exn) : M Ev A := ([], Raised e).
Definition tell {Ev} (ev : Ev) : M Ev unit := ([ev], Returned tt).
Definition lift {Ev A} (r : result A) : M Ev A := ([], r).

Definition bind {Ev A B} (c : M Ev A) (k : A -> M Ev B) : M Ev B :=
  match c with
  | (l1, Returned a) => let '(l2, r) := k a in (l1 ++ l2, r)
  | (l1, Raised e) => (l1, Raised e)
  end.

(** [try: c  except Exception as e: h e] *)
Definition try_except {Ev A} (c : M Ev A) (h : exn -> M Ev A) : M Ev A :=
  match c with
  | (l1, Returned a) => (l1, Returned a)
  | (l1, Raised e) => let '(l2, r) := h e in (l1 ++ l2, r)
  end.

Definition log_of {Ev A} (c : M Ev A) : list Ev := fst c.
Definition result_of {Ev A} (c : M Ev A) : result A := snd c.

(** [range(start, stop, step)], as the list of the integers it yields. *)
Definition py_range (start stop step : Z) : result (list Z) :=
  if step =? 0 then Raised (ValueError "range() arg 3 must not be zero")
  else
    let n := if 0 <? step
             then (if start <? stop then (stop - start - 1) / step + 1 else 0)
             else (if stop <? start then (start - stop - 1) / (- step) + 1 else 0) in
    Returned (map (fun k : nat => start + Z.of_nat k * step) (seq 0 (Z.to_nat n))).

(** A slice bound is clamped to [0, len]; a negative one counts from the end. *)
Definition slice_index (len i : Z) : Z :=
  if i <? 0 then Z.max (len + i) 0 else Z.min i len.

(** [l[i:j]] *)
Definition py_slice {A} (l : list A) (i j : Z) : list A :=
  let len := Z.of_nat (length l) in
  let lo := slice_index len i in
  let hi := slice_index len j in
  take (Z.to_nat (hi - lo)) (drop (Z.to_nat lo) l).

(** [list(map(f, l))], also [[f(x) for x in l]]: the calls are made one
    after the other, in order, and the first exception ends the evaluation. *)
Fixpoint list_map {A B} (f : A -> result B) (l : list A) : result (list B) :=
  match l with
  | [] => Returned []
  | x :: l' =>
      result_bind (f x) (fun y =>
      result_bind (list_map f l') (fun ys => Returned (y :: ys)))
  end.

End Py.

Import Py.

Declare Scope py_scope.
Delimit Scope py_scope with py.
Notation "'let*' x ':=' c 'in' k" := (bind c (fun x => k))
  (at level 10, x name, c at level 100, k at level 200) : py_scope.
Notation "c ';;' k" := (bind c (fun _ => k))
  (at level 100, k at level 200, right associativity) : py_scope.
Local Open Scope py_scope.

(** ** offchain/concurrency.py *)
Module Concurrency.

(** [logger.debug(msg, extra={"num_tasks": n})] *)
Record log_record := Debug { log_msg : string; num_tasks : Z }.

(** [ThreadPoolExecutor(max_workers=n)] refuses a pool without workers. *)
Definition ThreadPoolExecutor (max_workers : Z) : result Z :=
  if max_workers <=? 0
  then Raised (ValueError "max_workers must be greater than 0")
  else Returned max_workers.

(** The default of [batched_parmap]'s parameter [batch_size]. *)
Definition batch_size_default : Z := 10.

Section Engine.
(** The number of CPUs of the host, [multiprocessing.cpu_count()]. *)
Variable cpu_count : nat.

Definition MAX_PROCS : Z := (Z.of_nat cpu_count * 2) + 1.

Context {T U : Type}.

(** Closures refer to the variables of their enclosing scope through
    cells; [cells] is the store of the cells allocated so far. *)
Definition cells : Type := list T.

(** A callable without argument, run against the store. *)
Definition callable : Type := cells -> result U.

(** [lambda: fn(i)], with [i] the variable of cell [c]: the cell is
    read when the closure is called. *)
Definition thunk (fn : T -> result U) (c : nat) : callable :=
  fun st =>
    match st !! c with
    | Some i => fn i
    | None => Raised (NameError "free variable referenced before assignment")
    end.

(** [map(lambda i: lambda: fn(i), args)]: every call of the outer
    lambda binds its parameter [i] in a cell of its own. *)
Fixpoint map_lambda (fn : T -> result U) (args : list T) (st : cells)
  : list callable * cells :=
  match args with
  | [] => ([], st)
  | a :: args' =>
      let c := length st in
      let '(fs, st') := map_lambda fn args' (st ++ [a]) in
      (thunk fn c :: fs, st')
  end.

(** Assignment to the variable of cell [c], allocated by its first
    assignment. *)
Definition assign (c : nat) (a : T) (st : cells) : cells :=
  if decide (c < length st)%nat then <[c := a]> st else st ++ [a].

(** [[lambda: fn(arg) for arg in args]], the form the docstring of
    [parmap] warns against: one variable [arg], in cell [c], is
    assigned at every iteration and shared by all the closures. *)
Fixpoint comprehension_lambda (fn : T -> result U) (c : nat)
  (args : list T) (st : cells) : list callable * cells :=
  match args with
  | [] => ([], st)
  | a :: args' =>
      let '(fs, st') := comprehension_lambda fn c args' (assign c a st) in
      (thunk fn c :: fs, st')
  end.

(** [pool.submit(fn)]: the future holds what the call of [fn] on a
    worker thread returns or raises. *)
Definition submit (pool : Z) (st : cells) (fn : callable) : result U := fn st.

(** [f.result()] returns the value of the future or raises its exception. *)
Definition future_result (f : result U) : result U := f.

Definition parallelize_with_threads (st : cells) (args : list callable)
  : M log_record (list U) :=
  let n_tasks := Z.of_nat (length args) in
  tell (Debug "Starting tasks" n_tasks) ;;
  let* pool := lift (ThreadPoolExecutor (Z.min n_tasks MAX_PROCS)) in
  let futures := map (submit pool st) args in
  let* res := lift (list_map future_result futures) in
  ret res.

Definition parmap (fn : T -> result U) (args : list T) : M log_record (list U) :=
  let '(tasks, st) := map_lambda fn args [] in
  parallelize_with_threads st tasks.

(** The call the docstring of [parmap] shows as the one to avoid. *)
Definition parmap_comprehension (fn : T -> result U) (args : list T)
  : M log_record (list U) :=
  let '(tasks, st) := comprehension_lambda fn 0 args [] in
  parallelize_with_threads st tasks.

(** The body of the [for] loop of [batched_parmap], over the indices
    that [range] yields. *)
Fixpoint batched_parmap_loop (fn : T -> result U) (args : list T)
  (batch_size : Z) (indices : list Z) (results : list U)
  : M log_record (list U) :=
  match indices with
  | [] => ret results
  | i :: indices' =>
      let batch_end := i + batch_size in
      let batch := py_slice args i batch_end in
      let* res := parmap fn batch in
      batched_parmap_loop fn args batch_size indices' (results ++ res)
  end.

Definition batched_parmap (fn : T -> result U) (args : list T) (batch_size : Z)
  : M log_record (list U) :=
  let* indices := lift (py_range 0 (Z.of_nat (length args)) batch_size) in
  batched_parmap_loop fn args batch_size indices [].

(** The batches the loop of [batched_parmap] cuts: [args[i:i + batch_size]]
    for every [i] of the range. *)
Definition batches (args : list T) (batch_size : Z) : result (list (list T)) :=
  result_map (map (fun i => py_slice args i (i + batch_size)))
             (py_range 0 (Z.of_nat (length args)) batch_size).

(** The loop of [batched_parmap], over the batches themselves. *)
Fixpoint dispatch (fn : T -> result U) (bl : list (list T)) (results : list U)
  : M log_record (list U) :=
  match bl with
  | [] => ret results
  | batch :: bl' =>
      let* res := parmap fn batch in
      dispatch fn bl' (results ++ res)
  end.

End Engine.

End Concurrency.

(** ** offchain/metadata/pipelines/metadata_pipeline.py *)
Module MetadataPipeline.

Import Concurrency.

(** Modelled from the spec: the class [Token] (offchain/metadata/models/token.py)
    is the identity of an asset: collection identifier, token identifier
    and pointer URI. The pipeline reads [token.uri] only. *)
Record Token := { collection_address : string; token_id : Z; uri : string }.

Section Pipeline.
(** What the fetcher returns and what a parser produces. *)
Variables RawData Metadata : Type.

(** Modelled from the spec: [MetadataProcessingError]
    (offchain/metadata/models/metadata_processing_error.py) references
    the originating token and the cause; [from_token_and_error] builds
    it from a token and the exception caught. *)
Record MetadataProcessingError :=
  from_token_and_error { error_token : Token; error_cause : exn }.

(** [Union[Metadata, MetadataProcessingError]] *)
Inductive Outcome :=
| IsMetadata (m : Metadata)
| IsError (err : MetadataProcessingError).

(** Modelled from the spec: the content retriever, [fetch(uri)], which
    fails with a retrieval error (offchain/metadata/fetchers is absent). *)
Record Fetcher := { fetch_content : string -> result RawData }.

(** Modelled from the spec: an interpreter, with the pure predicate
    [isApplicable] and [interpret], which fails with an interpretation
    error (offchain/metadata/parsers/base_parser.py is absent). *)
Record Parser := {
  should_parse_token : Token -> RawData -> bool;
  parse_metadata : Token -> RawData -> result Metadata
}.

(** Modelled from the spec: the selection policy,
    [select(candidates) -> Outcome]. *)
Definition Selector : Type := list Outcome -> Outcome.

(** The attributes of a pipeline that [fetch_token_metadata] and [run]
    read; the constructor and [mount_adapter] only fill them. *)
Record Pipeline := { fetcher : Fetcher; parsers : list Parser }.

(** The calls the pipeline makes to its collaborators; a parser is
    named by its position in [self.parsers]. *)
Inductive call :=
| FetchContent (u : string)
| ShouldParseToken (k : nat) (token : Token) (raw_data : RawData)
| ParseMetadata (k : nat) (token : Token) (raw_data : RawData)
| SelectorFn (possible_metadatas : list Outcome).

Definition call_fetch_content (f : Fetcher) (u : string) : M call RawData :=
  ([FetchContent u], fetch_content f u).

Definition call_should_parse_token (k : nat) (p : Parser) (token : Token)
  (raw_data : RawData) : M call bool :=
  ([ShouldParseToken k token raw_data], Returned (should_parse_token p token raw_data)).

Definition call_parse_metadata (k : nat) (p : Parser) (token : Token)
  (raw_data : RawData) : M call Metadata :=
  ([ParseMetadata k token raw_data], parse_metadata p token raw_data).

Definition call_selector_fn (f : Selector) (possible_metadatas : list Outcome)
  : M call Outcome :=
  ([SelectorFn possible_metadatas], Returned (f possible_metadatas)).

(** How the [for] loop over [self.parsers] ends: by the [return] inside
    it, or by running out of parsers with [possible_metadatas]. *)
Inductive loop_exit :=
| Return (metadata_or_error : Outcome)
| Exhausted (possible_metadatas : list Outcome).

(** What the [try] statement leaves: the [return], or the value of
    [metadata_or_error] to append. *)
Inductive try_exit :=
| TryReturn (metadata_or_error : Outcome)
| TryNext (metadata_or_error : Outcome).

Fixpoint parsers_loop (token : Token) (raw_data : RawData)
  (metadata_selector_fn : option Selector) (k : nat) (ps : list Parser)
  (possible_metadatas : list Outcome) : M call loop_exit :=
  match ps with
  | [] => ret (Exhausted possible_metadatas)
  | parser :: ps' =>
      let* applicable := call_should_parse_token k parser token raw_data in
      if (applicable : bool) then
        let* t :=
          try_except
            (let* metadata := call_parse_metadata k parser token raw_data in
             match metadata_selector_fn with
             | None => ret (TryReturn (IsMetadata metadata))
             | Some _ => ret (TryNext (IsMetadata metadata))
             end)
            (fun e => ret (TryNext (IsError (from_token_and_error token e)))) in
        match t with
        | TryReturn metadata_or_error => ret (Return metadata_or_error)
        | TryNext metadata_or_error =>
            parsers_loop token raw_data metadata_selector_fn (S k) ps'
              (possible_metadatas ++ [metadata_or_error])
        end
      else
        parsers_loop token raw_data metadata_selector_fn (S k) ps' possible_metadatas
  end.

Definition fetch_token_metadata (self : Pipeline) (token : Token)
  (metadata_selector_fn : option Selector) : M call Outcome :=
  let* raw_data := call_fetch_content (fetcher self) (uri token) in
  let* exit := parsers_loop token raw_data metadata_selector_fn 0 (parsers self) [] in
  match exit with
  | Return metadata_or_error => ret metadata_or_error
  | Exhausted possible_metadatas =>
      let possible_metadatas :=
        if (length possible_metadatas =? 0)%nat
        then possible_metadatas ++
             [IsError (from_token_and_error token (Exception "No parsers found."))]
        else possible_metadatas in
      match metadata_selector_fn with
      | Some f => call_selector_fn f possible_metadatas
      | None =>
          match possible_metadatas !! 0%nat with
          | Some o => ret o
          | None => raise (IndexError "list index out of range")
          end
      end
  end.

(** [lambda t: self.fetch_token_metadata(t, select_metadata_fn)]: the
    engine sees the per-token resolution as a function that returns or
    raises. *)
Definition resolve (self : Pipeline) (select_metadata_fn : option Selector)
  (t : Token) : result Outcome :=
  result_of (fetch_token_metadata self t select_metadata_fn).

(** [run], on a host with [cpu_count] processors. *)
Definition run (cpu_count : nat) (self : Pipeline) (tokens : list Token)
  (parallelize : bool) (select_metadata_fn : option Selector)
  : M log_record (list Outcome) :=
  if (length tokens =? 0)%nat then ret []
  else
    if parallelize
    then batched_parmap cpu_count (resolve self select_metadata_fn) tokens 15
    else lift (list_map (resolve self select_metadata_fn) tokens).

(** *** Reading the log of collaborator calls *)

Definition is_fetch (c : call) : bool :=
  match c with FetchContent _ => true | _ => false end.

Definition is_should_parse_of (i : nat) (c : call) : bool :=
  match c with ShouldParseToken k _ _ => (k =? i)%nat | _ => false end.

Definition is_parse_of (i : nat) (c : call) : bool :=
  match c with ParseMetadata k _ _ => (k =? i)%nat | _ => false end.

Definition is_selector (c : call) : bool :=
  match c with SelectorFn _ => true | _ => false end.

(** The position of the parser a call addresses, if it addresses one. *)
Definition parser_of (c : call) : option nat :=
  match c with
  | ShouldParseToken k _ _ | ParseMetadata k _ _ => Some k
  | _ => None
  end.

(** The content a call hands to a parser, if it addresses one. *)
Definition content_of (c : call) : option RawData :=
  match c with
  | ShouldParseToken _ _ r | ParseMetadata _ _ r => Some r
  | _ => None
  end.

(** The number of calls of a kind in a log. *)
Fixpoint count (p : call -> bool) (l : list call) : nat :=
  match l with
  | [] => 0
  | c :: l' => (if p c then 1 else 0) + count p l'
  end.

(** The candidate an applicable parser contributes. *)
Definition candidate (token : Token) (raw_data : RawData) (p : Parser) : Outcome :=
  match parse_metadata p token raw_data with
  | Returned m => IsMetadata m
  | Raised e => IsError (from_token_and_error token e)
  end.

Definition applicable (token : Token) (raw_data : RawData) (p : Parser) : bool :=
  should_parse_token p token raw_data.

Definition succeeds (token : Token) (raw_data : RawData) (p : Parser) : bool :=
  returns (parse_metadata p token raw_data).

(** The candidates of a chain: one per applicable parser, in chain order. *)
Definition candidates (token : Token) (raw_data : RawData) (ps : list Parser)
  : list Outcome :=
  map (candidate token raw_data) (List.filter (applicable token raw_data) ps).

(** The calls a walk of the whole chain makes, from position [k] on:
    every parser is asked whether it applies, and an applicable one is
    asked to parse. *)
Fixpoint chain_calls (token : Token) (raw_data : RawData) (k : nat)
  (ps : list Parser) : list call :=
  match ps with
  | [] => []
  | p :: ps' =>
      ShouldParseToken k token raw_data
      :: (if applicable token raw_data p
          then [ParseMetadata k token raw_data] else [])
      ++ chain_calls token raw_data (S k) ps'
  end.

(** A call to a parser (neither the fetch nor the selection policy)
    that hands it the content [raw_data]. *)
Definition parser_call_with (raw_data : RawData) (c : call) : Prop :=
  is_fetch c = false /\ is_selector c = false /\ content_of c = Some raw_data.

(** The error of a token for which no parser applies. *)
Definition no_parsers_found (token : Token) : Outcome :=
  IsError (from_token_and_error token (Exception "No parsers found.")).

(** [possible_metadatas] after the test [len(possible_metadatas) == 0],
    when the loop has left the candidates of the chain in it. *)
Definition final_candidates (token : Token) (raw_data : RawData)
  (ps : list Parser) : list Outcome :=
  let possible_metadatas := candidates token raw_data ps in
  if (length possible_metadatas =? 0)%nat
  then possible_metadatas ++ [no_parsers_found token]
  else possible_metadatas.

End Pipeline.

Arguments IsMetadata {Metadata} m.
Arguments IsError {Metadata} err.
Arguments fetch_content {RawData} _ _.
Arguments should_parse_token {RawData Metadata} _ _ _.
Arguments parse_metadata {RawData Metadata} _ _ _.
Arguments fetcher {RawData Metadata} _.
Arguments parsers {RawData Metadata} _.
Arguments FetchContent {RawData Metadata} u.
Arguments ShouldParseToken {RawData Metadata} k token raw_data.
Arguments ParseMetadata {RawData Metadata} k token raw_data.
Arguments SelectorFn {RawData Metadata} possible_metadatas.
Arguments Return {Metadata} metadata_or_error.
Arguments Exhausted {Metadata} possible_metadatas.
Arguments parsers_loop {RawData Metadata} token raw_data metadata_selector_fn k ps possible_metadatas.
Arguments fetch_token_metadata {RawData Metadata} self token metadata_selector_fn.
Arguments run {RawData Metadata} cpu_count self tokens parallelize select_metadata_fn.
Arguments is_fetch {RawData Metadata} c.
Arguments is_should_parse_of {RawData Metadata} i c.
Arguments is_parse_of {RawData Metadata} i c.
Arguments is_selector {RawData Metadata} c.
Arguments parser_of {RawData Metadata} c.
Arguments content_of {RawData Metadata} c.
Arguments count {RawData Metadata} p l.
Arguments candidate {RawData Metadata} token raw_data p.
Arguments applicable {RawData Metadata} token raw_data p.
Arguments succeeds {RawData Metadata} token raw_data p.
Arguments candidates {RawData Metadata} token raw_data ps.
Arguments chain_calls {RawData Metadata} token raw_data k ps.
Arguments no_parsers_found {Metadata} token.
Arguments final_candidates {RawData Metadata} token raw_data ps.
Arguments resolve {RawData Metadata} self select_metadata_fn t.
Arguments parser_call_with {RawData Metadata} raw_data c.

End MetadataPipeline.

(** ** Sample inputs *)
Module Examples.

Import Concurrency MetadataPipeline.

Definition double (x : Z) : result Z := Returned (x * 2).

(** A function that raises on negative arguments. *)
Definition checked_double (x : Z) : result Z :=
  if x <? 0 then Raised (ValueError "negative") else Returned (x * 2).

Definition fifteen : list Z := [1; 2; 3; 4; 5; 6; 7; 8; 9; 10; 11; 12; 13; 14; 15].

Definition T1 : Token :=
  {| collection_address := "0x57f1887a8BF19b14fC0dF6Fd9B2acc9Af147eA85";
     token_id := 1; uri := "ipfs://one" |}.
Definition T2 : Token :=
  {| collection_address := "0x3B3ee1931Dc30C1957379FAc9aba94D1C48a5405";
     token_id := 2; uri := "https://gone.example/2" |}.
Definition T3 : Token :=
  {| collection_address := "0x9C8fF314C9Bc7F6e59A9d9225Fb22946427eDC03";
     token_id := 3; uri := "data:three" |}.
Definition T4 : Token :=
  {| collection_address := "0xb932a70A57673d89f4acfFBE830E8ed7f75Fb9e0";
     token_id := 4; uri := "ar://four" |}.

(** A fetcher for which one URI is unreachable; the content of the
    others is written as the URI itself. *)
Definition sample_fetcher : Fetcher string :=
  {| fetch_content u :=
       if String.eqb u "https://gone.example/2"
       then Raised (Exception "Don't know how to fetch metadata")
       else Returned u |}.

(** Claims every content but that of [T4]; fails on that of [T3]. *)
Definition first_parser : Parser string string :=
  {| should_parse_token _ raw := negb (String.eqb raw "ar://four");
     parse_metadata _ raw :=
       if String.eqb raw "data:three"
       then Raised (Exception "malformed payload")
       else Returned (String.append "first:" raw) |}.

(** Claims every content but that of [T4]; never fails. *)
Definition second_parser : Parser string string :=
  {| should_parse_token _ raw := negb (String.eqb raw "ar://four");
     parse_metadata _ raw := Returned (String.append "second:" raw) |}.

(** Claims every content and fails on all. *)
Definition failing_parser (msg : string) : Parser string string :=
  {| should_parse_token _ _ := true;
     parse_metadata _ _ := Raised (Exception msg) |}.

Definition sample_pipeline : Pipeline string string :=
  {| fetcher := sample_fetcher; parsers := [first_parser; second_parser] |}.

Definition failing_pipeline : Pipeline string string :=
  {| fetcher := sample_fetcher;
     parsers := [failing_parser "not json"; failing_parser "no image"] |}.

(** A selection policy: the last candidate. *)
Definition last_candidate : Selector string :=
  fun possible_metadatas =>
    List.last possible_metadatas
      (IsError (from_token_and_error T1 (Exception "no candidate"))).

End Examples.

(** ** offchain/constants/addresses.py *)
Module Addresses.

(** The members of the enumeration [CollectionAddress]. *)
Inductive CollectionAddress := ENS | FOUNDATION | LIL_NOUNS | NOUNS | SUPERRARE.

(** [member.value] *)
Definition value (a : CollectionAddress) : string :=
  match a with
  | ENS => "0x57f1887a8BF19b14fC0dF6Fd9B2acc9Af147eA85"
  | FOUNDATION => "0x3B3ee1931Dc30C1957379FAc9aba94D1C48a5405"
  | LIL_NOUNS => "0x4b10701Bfd7BFEdc47d50562b76b436fbB5BdB3B"
  | NOUNS => "0x9C8fF314C9Bc7F6e59A9d9225Fb22946427eDC03"
  | SUPERRARE => "0xb932a70A57673d89f4acfFBE830E8ed7f75Fb9e0"
  end.

(** [list(CollectionAddress)]: the members in definition order. *)
Definition members : list CollectionAddress :=
  [ENS; FOUNDATION; LIL_NOUNS; NOUNS; SUPERRARE].

(** [CollectionAddress(s)]: the first member whose value is [s]; an
    enumeration raises [ValueError] when there is none. *)
Definition of_value (s : string) : result CollectionAddress :=
  match List.find (fun m => String.eqb (value m) s) members with
  | Some m => Returned m
  | None => Raised (ValueError (String.append "'" (String.append s
                                  "' is not a valid CollectionAddress")))
  end.

Definition is_hex_digit (c : Ascii.ascii) : bool :=
  let n := Ascii.nat_of_ascii c in
  ((48 <=? n) && (n <=? 57) || (65 <=? n) && (n <=? 70)
   || (97 <=? n) && (n <=? 102))%nat.

(** A contract address as text: [0x] and forty hexadecimal digits. *)
Definition is_address (s : string) : bool :=
  (String.length s =? 42)%nat
  && String.prefix "0x" s
  && forallb is_hex_digit (String.list_ascii_of_string (String.substring 2 40 s)).

(** [str.lower] on ASCII text. *)
Definition lower_ascii (c : Ascii.ascii) : Ascii.ascii :=
  let n := Ascii.nat_of_ascii c in
  if ((65 <=? n) && (n <=? 90))%nat then Ascii.ascii_of_nat (n + 32) else c.

Fixpoint lower (s : string) : string :=
  match s with
  | EmptyString => EmptyString
  | String c s' => String (lower_ascii c) (lower s')
  end.

End Addresses.

(** ** The constructor of [MetadataPipeline] and [mount_adapter] *)
Module Construction.

Import MetadataPipeline.

(** The adapters the default configuration instantiates, with the
    arguments of their constructors. *)
Inductive Adapter :=
| ARWeaveAdapter (pool_connections pool_maxsize max_retries : Z)
| DataURIAdapter
| HTTPAdapter (pool_connections pool_maxsize max_retries : Z)
| IPFSAdapter (pool_connections pool_maxsize max_retries : Z).

Record AdapterConfig := { adapter : Adapter; mount_prefixes : list string }.

Definition DEFAULT_ADAPTER_CONFIGS : list AdapterConfig :=
  [ {| adapter := ARWeaveAdapter 100 1000 0; mount_prefixes := ["ar://"] |};
    {| adapter := DataURIAdapter; mount_prefixes := ["data:"] |};
    {| adapter := HTTPAdapter 100 1000 0; mount_prefixes := ["https://"; "http://"] |};
    {| adapter := IPFSAdapter 100 1000 0;
       mount_prefixes := ["ipfs://"; "https://gateway.pinata.cloud/"; "https://ipfs.io/"] |} ].

(** Modelled from the spec: [register_adapter] of the fetcher
    (offchain/metadata/fetchers is absent) binds a prefix to a strategy in
    the registry of the fetcher; a later registration for a prefix already
    registered replaces the earlier binding. *)
Definition register_adapter (a : Adapter) (url_prefix : string)
  (registry : gmap string Adapter) : gmap string Adapter :=
  <[url_prefix := a]> registry.

(** [mount_adapter], on the registry of [self.fetcher]. *)
Fixpoint mount_adapter (a : Adapter) (url_prefixes : list string)
  (registry : gmap string Adapter) : gmap string Adapter :=
  match url_prefixes with
  | [] => registry
  | url_prefix :: url_prefixes' =>
      mount_adapter a url_prefixes' (register_adapter a url_prefix registry)
  end.

(** The loop of [__init__] over the adapter configurations. *)
Fixpoint mount_all (adapter_configs : list AdapterConfig)
  (registry : gmap string Adapter) : gmap string Adapter :=
  match adapter_configs with
  | [] => registry
  | adapter_config :: adapter_configs' =>
      mount_all adapter_configs'
        (mount_adapter (adapter adapter_config) (mount_prefixes adapter_config) registry)
  end.

Section Init.
Variables RawData Metadata : Type.

(** [MetadataFetcher()], the fetcher built when none is given. *)
Variable MetadataFetcher : Fetcher RawData.

(** [DEFAULT_PARSER_CLASSES]: every class builds a parser from a fetcher. *)
Variable DEFAULT_PARSER_CLASSES : list (Fetcher RawData -> Parser RawData Metadata).

(** [__init__]: the pipeline built, and the registry of its fetcher,
    [registry] being that registry before the call. *)
Definition init (fetcher : option (Fetcher RawData))
  (parsers : option (list (Parser RawData Metadata)))
  (adapter_configs : option (list AdapterConfig))
  (registry : gmap string Adapter)
  : Pipeline RawData Metadata * gmap string Adapter :=
  let self_fetcher := match fetcher with Some f => f | None => MetadataFetcher end in
  let adapter_configs :=
    match adapter_configs with
    | None => DEFAULT_ADAPTER_CONFIGS
    | Some configs => configs
    end in
  let registry := mount_all adapter_configs registry in
  let parsers :=
    match parsers with
    | None => map (fun parser_cls => parser_cls self_fetcher) DEFAULT_PARSER_CLASSES
    | Some ps => ps
    end in
  ({| MetadataPipeline.fetcher := self_fetcher; MetadataPipeline.parsers := parsers |},
   registry).

End Init.

(** The adapter a list of configurations leaves registered for a prefix:
    that of the last configuration that lists the prefix. *)
Definition last_adapter_for (url_prefix : string) (adapter_configs : list AdapterConfig)
  : option Adapter :=
  match List.find (fun c => existsb (String.eqb url_prefix) (mount_prefixes c))
                  (rev adapter_configs) with
  | Some c => Some (adapter c)
  | None => None
  end.

End Construction.

(** ** Reading the log of the engine *)
Module EngineReference.

Import Concurrency.

(** The record [parallelize_with_threads] logs when it is given the
    tasks of the batch [b]. *)
Definition started {T : Type} (b : list T) : log_record :=
  Debug "Starting tasks" (Z.of_nat (length b)).

End EngineReference.

(** ** Reference definitions for the resolution of one token *)
Module Reference.

Import MetadataPipeline.

Section Reference.
Variables RawData Metadata : Type.

(** The outcome without a selection policy, read off the chain: the
    result of the first applicable parser that succeeds; without one, the
    first candidate; without any candidate, the error of the empty chain. *)
Definition default_outcome (token : Token) (raw_data : RawData)
  (ps : list (Parser RawData Metadata)) : Outcome Metadata :=
  match List.find (succeeds token raw_data)
                  (List.filter (applicable token raw_data) ps) with
  | Some p => candidate token raw_data p
  | None =>
      match candidates token raw_data ps with
      | [] => no_parsers_found token
      | c :: _ => c
      end
  end.

(** The token an outcome refers to, when it is an error. *)
Definition outcome_token (o : Outcome Metadata) : option Token :=
  match o with
  | IsMetadata _ => None
  | IsError err => Some (error_token err)
  end.

End Reference.

Arguments default_outcome {RawData Metadata} token raw_data ps.
Arguments outcome_token {Metadata} o.

End Reference.

(** * Properties of the parallel execution engine *)
Module ConcurrencyFacts.

Import Concurrency.

Section Engine.
Variable cpu_count : nat.
Context {T U : Type}.
Implicit Types (fn : T -> result U) (args : list T) (st : list T).

Lemma MAX_PROCS_pos : 1 <= MAX_PROCS cpu_count.
Proof. unfold MAX_PROCS. lia. Qed.

Lemma list_map_app {A B} (f : A -> result B) (l1 l2 : list A) :
  list_map f (l1 ++ l2) =
  result_bind (list_map f l1) (fun r1 => result_map (app r1) (list_map f l2)).
Proof.
  induction l1 as [|x l1 IH]; simpl.
  - unfold result_map. destruct (list_map f l2); reflexivity.
  - destruct (f x) as [y|e]; simpl; [|reflexivity].
    rewrite IH. destruct (list_map f l1) as [r1|e]; simpl; [|reflexivity].
    unfold result_map. destruct (list_map f l2); reflexivity.
Qed.

Lemma list_map_length {A B} (f : A -> result B) (l : list A) (r : list B) :
  list_map f l = Returned r -> length r = length l.
Proof.
  revert r. induction l as [|x l IH]; simpl; intros r H.
  - injection H as <-. reflexivity.
  - destruct (f x) as [y|e]; simpl in H; [|discriminate].
    destruct (list_map f l) as [ys|e]; simpl in H; [|discriminate].
    injection H as <-. simpl. f_equal. apply IH. reflexivity.
Qed.

(** The closures [map] builds read one fresh cell each, and the cells
    hold the arguments in order. *)
Lemma map_lambda_spec fn args st :
  map_lambda fn args st =
  (map (thunk fn) (seq (length st) (length args)), st ++ args).
Proof.
  revert st. induction args as [|a args IH]; intros st; simpl.
  - rewrite app_nil_r. reflexivity.
  - rewrite IH. rewrite length_app. simpl.
    replace (length st + 1)%nat with (S (length st)) by lia.
    rewrite <- app_assoc. reflexivity.
Qed.

(** Called on the final store, the closure of rank [k] computes [fn]
    of the argument of rank [k]. *)
Lemma thunks_read_own_argument fn args st pool :
  map (submit pool (st ++ args)) (map (thunk fn) (seq (length st) (length args)))
  = map fn args.
Proof.
  revert st. induction args as [|a args IH]; intros st; simpl; [reflexivity|].
  f_equal.
  - unfold submit, thunk. rewrite list_lookup_middle by reflexivity. reflexivity.
  - specialize (IH (st ++ [a])). rewrite length_app in IH. simpl in IH.
    replace (length st + 1)%nat with (S (length st)) in IH by lia.
    rewrite <- app_assoc in IH. exact IH.
Qed.

Lemma list_map_future_result fn args :
  list_map future_result (map fn args) = list_map fn args.
Proof.
  induction args as [|a args IH]; simpl; [reflexivity|].
  unfold future_result at 1. destruct (fn a); simpl; [|reflexivity].
  rewrite IH. reflexivity.
Qed.

(** What [parmap] logs and returns, on every input. *)
Lemma parmap_unfold fn args :
  parmap cpu_count fn args =
  ([Debug "Starting tasks" (Z.of_nat (length args))],
   if Z.min (Z.of_nat (length args)) (MAX_PROCS cpu_count) <=? 0
   then Raised (ValueError "max_workers must be greater than 0")
   else list_map fn args).
Proof.
  unfold parmap. rewrite map_lambda_spec. simpl.
  unfold parallelize_with_threads. rewrite length_map, length_seq.
  unfold ThreadPoolExecutor.
  destruct (Z.min (Z.of_nat (length args)) (MAX_PROCS cpu_count) <=? 0); simpl;
    [reflexivity|].
  rewrite (thunks_read_own_argument fn args []). simpl.
  rewrite list_map_future_result.
  destruct (list_map fn args); reflexivity.
Qed.

(** *** The batches of [batched_parmap] *)

(** The number of indices [range(0, len, step)] yields covers [len]
    and no more. *)
Lemma py_range_cover (len step : Z) :
  0 <= len -> 1 <= step ->
  exists n : nat,
    py_range 0 len step
    = Returned (map (fun k : nat => 0 + Z.of_nat k * step) (seq 0 n))
    /\ len <= Z.of_nat n * step
    /\ (forall k : nat, (k < n)%nat -> Z.of_nat k * step < len).
Proof.
  intros Hlen Hstep. unfold py_range.
  destruct (Z.eqb_spec step 0) as [->|_]; [lia|].
  destruct (Z.ltb_spec 0 step) as [_|]; [|lia].
  destruct (Z.ltb_spec 0 len) as [Hpos|Hzero].
  - exists (Z.to_nat ((len - 0 - 1) / step + 1)). split; [reflexivity|].
    assert (Hq : 0 <= (len - 0 - 1) / step) by (apply Z.div_pos; lia).
    pose proof (Z.mul_div_le (len - 0 - 1) step ltac:(lia)) as Hlo.
    pose proof (Z.mul_succ_div_gt (len - 0 - 1) step ltac:(lia)) as Hhi.
    split.
    + rewrite Z2Nat.id by lia. lia.
    + intros k Hk. apply Z.le_lt_trans with (step * ((len - 0 - 1) / step)); [|lia].
      rewrite (Z.mul_comm step). apply Z.mul_le_mono_nonneg_r; lia.
  - exists 0%nat. split; [reflexivity|]. split; [lia|]. intros k Hk. lia.
Qed.

(** Inside the list, [args[i:i + step]] is [step] elements from rank [i]. *)
Lemma py_slice_batch {A} (l : list A) (k : nat) (step : Z) :
  1 <= step ->
  py_slice l (0 + Z.of_nat k * step) (0 + Z.of_nat k * step + step)
  = take (Z.to_nat step) (drop (k * Z.to_nat step) l).
Proof.
  intros Hstep. unfold py_slice, slice_index.
  set (len := Z.of_nat (length l)). set (i := 0 + Z.of_nat k * step).
  assert (Hi : 0 <= i) by (unfold i; nia).
  assert (Hk : (k * Z.to_nat step)%nat = Z.to_nat i) by (unfold i; nia).
  rewrite Hk.
  destruct (Z.ltb_spec i 0) as [|_]; [lia|].
  destruct (Z.ltb_spec (i + step) 0) as [|_]; [lia|].
  destruct (Z.le_gt_cases len i) as [Hout|Hin].
  - rewrite (drop_ge l (Z.to_nat (Z.min i len))) by (unfold len in *; lia).
    rewrite (drop_ge l (Z.to_nat i)) by (unfold len in *; lia).
    rewrite !take_nil. reflexivity.
  - rewrite (Z.min_l i len) by lia.
    destruct (Z.le_gt_cases (i + step) len) as [Hfull|Hpart].
    + rewrite Z.min_l by lia. f_equal. lia.
    + rewrite Z.min_r by lia.
      rewrite !take_ge; [reflexivity| |]; rewrite length_drop; unfold len in *; lia.
Qed.

(** Consecutive slices of [step] elements, concatenated, give back the
    list from the first slice on. *)
Lemma concat_chunks {A} (l : list A) (b : nat) (m k0 : nat) :
  (length l <= (k0 + m) * b)%nat ->
  concat (map (fun k : nat => take b (drop (k * b) l)) (seq k0 m)) = drop (k0 * b) l.
Proof.
  revert k0. induction m as [|m IH]; intros k0 Hlen; simpl.
  - rewrite drop_ge by lia. reflexivity.
  - rewrite IH by lia.
    replace (S k0 * b)%nat with (k0 * b + b)%nat by lia.
    rewrite <- drop_drop. apply take_drop.
Qed.

(** [batched_parmap] cuts its input into batches of one to
    [batch_size] elements which, put end to end, are the input. *)
Lemma batches_partition args (batch_size : Z) :
  1 <= batch_size ->
  exists bl : list (list T),
    batches args batch_size = Returned bl
    /\ concat bl = args
    /\ Forall (fun b => (1 <= length b)%nat /\ Z.of_nat (length b) <= batch_size) bl.
Proof.
  intros Hbs.
  destruct (py_range_cover (Z.of_nat (length args)) batch_size ltac:(lia) Hbs)
    as (n & Hrange & Hcover & Hin).
  unfold batches. rewrite Hrange. simpl. rewrite map_map.
  eexists. split; [reflexivity|].
  erewrite map_ext by (intros k; apply py_slice_batch; exact Hbs).
  split.
  - rewrite (concat_chunks args (Z.to_nat batch_size) n 0) by nia.
    reflexivity.
  - apply Forall_map. apply Forall_forall. intros k Hk.
    apply elem_of_seq in Hk. specialize (Hin k ltac:(lia)).
    rewrite length_take, length_drop. nia.
Qed.

Lemma batched_parmap_loop_dispatch fn args batch_size indices results :
  batched_parmap_loop cpu_count fn args batch_size indices results
  = dispatch cpu_count fn (map (fun i => py_slice args i (i + batch_size)) indices) results.
Proof.
  revert results. induction indices as [|i indices IH]; intros results; simpl;
    [reflexivity|].
  destruct (parmap cpu_count fn _) as [l [res|e]]; simpl; [|reflexivity].
  rewrite IH. reflexivity.
Qed.

Lemma batched_parmap_dispatch fn args batch_size bl :
  batches args batch_size = Returned bl ->
  batched_parmap cpu_count fn args batch_size = dispatch cpu_count fn bl [].
Proof.
  unfold batches, batched_parmap. intros H.
  destruct (py_range 0 _ batch_size) as [indices|e]; simpl in H; [|discriminate].
  injection H as <-. simpl.
  rewrite batched_parmap_loop_dispatch.
  destruct (dispatch cpu_count fn _ []) as [l r]. reflexivity.
Qed.

(** One non-empty batch is one pool: the results of the batch are
    those of the sequential map. *)
Lemma parmap_nonempty fn args :
  (1 <= length args)%nat ->
  parmap cpu_count fn args =
  ([Debug "Starting tasks" (Z.of_nat (length args))], list_map fn args).
Proof.
  intros Hlen. pose proof MAX_PROCS_pos as Hprocs. rewrite parmap_unfold.
  destruct (Z.leb_spec (Z.min (Z.of_nat (length args)) (MAX_PROCS cpu_count)) 0);
    [lia|reflexivity].
Qed.

(** Batch after batch, the loop returns what the sequential map of the
    concatenated batches returns, or raises what it raises. *)
Lemma dispatch_result fn bl results :
  Forall (fun b => (1 <= length b)%nat) bl ->
  result_of (dispatch cpu_count fn bl results)
  = result_map (app results) (list_map fn (concat bl)).
Proof.
  intros Hbl. revert results.
  induction Hbl as [|b bl Hb _ IH]; intros results; simpl.
  - unfold result_map. simpl. rewrite app_nil_r. reflexivity.
  - rewrite parmap_nonempty by assumption. rewrite list_map_app.
    destruct (list_map fn b) as [res|e]; simpl; [|reflexivity].
    specialize (IH (results ++ res)).
    destruct (dispatch cpu_count fn bl (results ++ res)) as [l r]. simpl in *.
    rewrite IH. unfold result_map.
    destruct (list_map fn (concat bl)); simpl; [|reflexivity].
    rewrite app_assoc. reflexivity.
Qed.

(** When no call raises, every batch is dispatched, in order. *)
Lemma dispatch_log fn bl results r :
  Forall (fun b => (1 <= length b)%nat) bl ->
  list_map fn (concat bl) = Returned r ->
  log_of (dispatch cpu_count fn bl results)
  = map (fun b => Debug "Starting tasks" (Z.of_nat (length b))) bl.
Proof.
  intros Hbl. revert results r.
  induction Hbl as [|b bl Hb _ IH]; intros results r Hr; simpl; [reflexivity|].
  rewrite parmap_nonempty by assumption.
  simpl in Hr. rewrite list_map_app in Hr.
  destruct (list_map fn b) as [res|e]; simpl in *; [|discriminate].
  unfold result_map in Hr.
  destruct (list_map fn (concat bl)) as [r2|e] eqn:E; simpl in Hr; [|discriminate].
  specialize (IH (results ++ res) r2 eq_refl).
  destruct (dispatch cpu_count fn bl (results ++ res)) as [l x]. simpl in *.
  rewrite IH. reflexivity.
Qed.

(** With a batch size of at least one, [batched_parmap] returns or
    raises what the sequential map does. *)
Lemma batched_parmap_result fn args (batch_size : Z) :
  1 <= batch_size ->
  result_of (batched_parmap cpu_count fn args batch_size) = list_map fn args.
Proof.
  intros Hbs.
  destruct (batches_partition args batch_size Hbs) as (bl & Hbl & Hcat & Hall).
  rewrite (batched_parmap_dispatch fn args batch_size bl Hbl).
  rewrite dispatch_result; [| eapply Forall_impl; [exact Hall|]; simpl; tauto].
  rewrite Hcat. unfold result_map.
  destruct (list_map fn args); reflexivity.
Qed.

(** The closures of the list comprehension share one cell: called on
    the final store, all of them compute [fn] of the last argument. *)
Lemma comprehension_lambda_spec fn (c : nat) args st :
  (c <= length st)%nat ->
  comprehension_lambda fn c args st
  = (map (fun _ => thunk fn c) args, fold_left (fun s a => assign c a s) args st).
Proof.
  revert st. induction args as [|a args IH]; intros st Hc; simpl; [reflexivity|].
  rewrite IH; [reflexivity|].
  unfold assign. destruct (decide (c < length st)%nat).
  - rewrite length_insert. lia.
  - rewrite length_app. simpl. lia.
Qed.

(** C4. For every function [fn] and every non-empty list [args],
    [parmap] returns exactly the results of [fn] on the items, in input
    order (and raises what the in-order evaluation of
    [[fn(args[0]), fn(args[1]), ...]] raises, when [fn] raises): every
    task built by [map(lambda i: lambda: fn(i), args)] owns the cell of
    its argument, so on the final store the task of rank [k] computes
    [fn(args[k])] and reads no other item. *)
Theorem parmap_in_input_order fn args :
  args <> [] ->
  result_of (parmap cpu_count fn args) = list_map fn args
  /\ (forall f : T -> U, (forall x, fn x = Returned (f x)) ->
      result_of (parmap cpu_count fn args) = Returned (map f args))
  /\ (forall tasks st, map_lambda fn args [] = (tasks, st) ->
      st = args /\ map (fun task : callable => task st) tasks = map fn args).
Proof.
  intros Hne.
  assert (Hlen : (1 <= length args)%nat) by (destruct args; [congruence|simpl; lia]).
  rewrite parmap_nonempty by exact Hlen. simpl.
  split; [reflexivity|]. split.
  - intros f Hf. clear Hne Hlen. induction args as [|a args IH]; simpl; [reflexivity|].
    rewrite Hf. simpl. rewrite IH. reflexivity.
  - intros tasks st Hm. rewrite map_lambda_spec in Hm. simpl in Hm.
    injection Hm as <- <-. split; [reflexivity|].
    exact (thunks_read_own_argument fn args [] 0).
Qed.

(** C10. [batched_parmap] preserves the length of its input only when
    [batch_size >= 1]: with a negative batch size it returns the empty
    list whatever the input (so every item of a non-empty input is
    dropped, and no batch is dispatched); with [batch_size = 0] the
    [range] of the loop raises [ValueError]; with [batch_size >= 1] a
    returned list has the length of the input. *)
Theorem batched_parmap_batch_size fn args (batch_size : Z) :
  (batch_size < 0 ->
     batched_parmap cpu_count fn args batch_size = ([], Returned [])
     /\ (args <> [] -> forall r,
           result_of (batched_parmap cpu_count fn args batch_size) = Returned r ->
           length r <> length args))
  /\ (batch_size = 0 ->
     batched_parmap cpu_count fn args batch_size
     = ([], Raised (ValueError "range() arg 3 must not be zero")))
  /\ (1 <= batch_size -> forall r,
     result_of (batched_parmap cpu_count fn args batch_size) = Returned r ->
     length r = length args).
Proof.
  split; [|split].
  - intros Hneg.
    assert (E : batched_parmap cpu_count fn args batch_size = ([], Returned [])).
    { unfold batched_parmap, py_range.
      destruct (Z.eqb_spec batch_size 0); [lia|].
      destruct (Z.ltb_spec 0 batch_size); [lia|].
      destruct (Z.ltb_spec (Z.of_nat (length args)) 0); [lia|].
      reflexivity. }
    split; [exact E|].
    intros Hne r Hr. rewrite E in Hr. simpl in Hr. injection Hr as <-.
    destruct args; [congruence|simpl; lia].
  - intros ->. reflexivity.
  - intros Hbs r Hr. rewrite batched_parmap_result in Hr by exact Hbs.
    eapply list_map_length. exact Hr.
Qed.

End Engine.

(** The list comprehension of the docstring does corrupt the results:
    every task reads the last value of the shared variable. *)
Example parmap_comprehension_shadowing :
  result_of (parmap_comprehension 4 Examples.double [1; 2; 3]) = Returned [6; 6; 6]
  /\ result_of (parmap 4 Examples.double [1; 2; 3]) = Returned [2; 4; 6].
Proof. split; reflexivity. Qed.

Lemma parmap_in_input_order_witness :
  [1; 2; 3] <> ([] : list Z)
  /\ result_of (parmap 4 Examples.checked_double [1; 2; 3]) = Returned [2; 4; 6].
Proof.
  split; [discriminate|].
  exact (proj1 (parmap_in_input_order 4 Examples.checked_double [1; 2; 3]
                  ltac:(discriminate))).
Defined.

Lemma batched_parmap_batch_size_witness :
  batched_parmap 4 Examples.double Examples.fifteen (-1) = ([], Returned [])
  /\ batched_parmap 4 Examples.double Examples.fifteen 0
     = ([], Raised (ValueError "range() arg 3 must not be zero"))
  /\ length (map (fun x => x * 2) Examples.fifteen) = length Examples.fifteen.
Proof.
  split; [|split].
  - exact (proj1 (proj1 (batched_parmap_batch_size 4 Examples.double Examples.fifteen (-1))
                    ltac:(lia))).
  - exact (proj1 (proj2 (batched_parmap_batch_size 4 Examples.double Examples.fifteen 0))
              eq_refl).
  - exact (proj2 (proj2 (batched_parmap_batch_size 4 Examples.double Examples.fifteen 4))
              ltac:(lia) _ eq_refl).
Defined.

End ConcurrencyFacts.

(** * Properties of the metadata pipeline *)
Module PipelineFacts.

Import Concurrency MetadataPipeline.

Section Resolution.
Variables RawData Metadata : Type.
Implicit Types (self : Pipeline RawData Metadata) (token : Token)
  (raw_data : RawData) (ps pre post : list (Parser RawData Metadata))
  (p q : Parser RawData Metadata)
  (sel : option (Selector Metadata)) (f : Selector Metadata)
  (possible_metadatas : list (Outcome Metadata)).

Lemma count_app (p : call RawData Metadata -> bool) (l1 l2 : list (call RawData Metadata)) :
  count p (l1 ++ l2) = (count p l1 + count p l2)%nat.
Proof. induction l1 as [|c l1 IH]; simpl; [reflexivity|]. rewrite IH. lia. Qed.

(** **** The walk of the chain *)

(** With a selection policy there is no [return] in the loop: the whole
    chain is walked and every applicable parser leaves a candidate. *)
Lemma parsers_loop_selector token raw_data f ps k possible_metadatas :
  parsers_loop token raw_data (Some f) k ps possible_metadatas
  = (chain_calls token raw_data k ps,
     Returned (Exhausted (possible_metadatas ++ candidates token raw_data ps))).
Proof.
  revert k possible_metadatas.
  induction ps as [|p ps IH]; intros k possible_metadatas; simpl.
  - unfold candidates. simpl. rewrite app_nil_r. reflexivity.
  - unfold call_should_parse_token, call_parse_metadata, candidates, applicable,
      candidate in *. simpl.
    destruct (should_parse_token p token raw_data); simpl.
    + destruct (parse_metadata p token raw_data) as [m|e]; simpl;
        rewrite IH; simpl; rewrite <- app_assoc; reflexivity.
    + rewrite IH. reflexivity.
Qed.

(** Without a policy, a chain in which no applicable parser succeeds is
    walked to its end in the same way. *)
Lemma parsers_loop_no_success token raw_data ps k possible_metadatas :
  Forall (fun p => applicable token raw_data p = true ->
                   succeeds token raw_data p = false) ps ->
  parsers_loop token raw_data None k ps possible_metadatas
  = (chain_calls token raw_data k ps,
     Returned (Exhausted (possible_metadatas ++ candidates token raw_data ps))).
Proof.
  intros Hall. revert k possible_metadatas.
  induction Hall as [|p ps Hp _ IH]; intros k possible_metadatas; simpl.
  - unfold candidates. simpl. rewrite app_nil_r. reflexivity.
  - unfold call_should_parse_token, call_parse_metadata, candidates, applicable,
      succeeds, candidate in *. simpl.
    destruct (should_parse_token p token raw_data); simpl.
    + specialize (Hp eq_refl).
      destruct (parse_metadata p token raw_data) as [m|e]; simpl in *; [discriminate|].
      rewrite IH. simpl. rewrite <- app_assoc. reflexivity.
    + rewrite IH. reflexivity.
Qed.

(** Without a policy, the walk ends at the first applicable parser that
    succeeds, with its metadata. *)
Lemma parsers_loop_first_success token raw_data pre p post (m : Metadata) k
  possible_metadatas :
  Forall (fun q => applicable token raw_data q = true ->
                   succeeds token raw_data q = false) pre ->
  applicable token raw_data p = true ->
  parse_metadata p token raw_data = Returned m ->
  parsers_loop token raw_data None k (pre ++ p :: post) possible_metadatas
  = (chain_calls token raw_data k (pre ++ [p]), Returned (Return (IsMetadata m))).
Proof.
  intros Hpre Hp Hm. revert k possible_metadatas.
  induction Hpre as [|q pre Hq _ IH]; intros k possible_metadatas; simpl.
  - unfold call_should_parse_token, call_parse_metadata, applicable in *. simpl.
    rewrite Hp. simpl. rewrite Hm. simpl. reflexivity.
  - unfold call_should_parse_token, call_parse_metadata, applicable, succeeds in *.
    simpl.
    destruct (should_parse_token q token raw_data); simpl.
    + specialize (Hq eq_refl).
      destruct (parse_metadata q token raw_data) as [mq|e]; simpl in *; [discriminate|].
      rewrite IH. reflexivity.
    + rewrite IH. reflexivity.
Qed.

(** **** The calls of a walk *)

Lemma count_none (p : call RawData Metadata -> bool) (l : list (call RawData Metadata)) :
  Forall (fun c => p c = false) l -> count p l = 0%nat.
Proof.
  induction 1 as [|c l Hc _ IH]; simpl; [reflexivity|]. rewrite Hc, IH. reflexivity.
Qed.

Lemma chain_calls_app token raw_data k ps1 ps2 :
  chain_calls token raw_data k (ps1 ++ ps2)
  = chain_calls token raw_data k ps1
    ++ chain_calls token raw_data (k + length ps1) ps2.
Proof.
  revert k. induction ps1 as [|p ps1 IH]; intros k; simpl.
  - rewrite Nat.add_0_r. reflexivity.
  - rewrite IH. replace (S k + length ps1)%nat with (k + S (length ps1))%nat by lia.
    rewrite <- app_assoc. reflexivity.
Qed.

Lemma chain_calls_shape token raw_data k ps :
  Forall (parser_call_with raw_data) (chain_calls token raw_data k ps).
Proof.
  revert k. induction ps as [|p ps IH]; intros k; simpl; [constructor|].
  constructor; [repeat split|].
  destruct (applicable token raw_data p); simpl; [constructor; [repeat split|]|];
    apply IH.
Qed.

(** Positions below the start of a walk are not called. *)
Lemma chain_calls_below token raw_data k ps (j : nat) :
  (j < k)%nat ->
  count (is_should_parse_of j) (chain_calls token raw_data k ps) = 0%nat
  /\ count (is_parse_of j) (chain_calls token raw_data k ps) = 0%nat.
Proof.
  revert k. induction ps as [|p ps IH]; intros k Hj; simpl; [split; reflexivity|].
  destruct (IH (S k) ltac:(lia)) as [IH1 IH2].
  assert (E : (k =? j)%nat = false) by (apply Nat.eqb_neq; lia).
  rewrite E. simpl. rewrite !count_app, IH1, IH2.
  destruct (applicable token raw_data p); simpl; rewrite ?E; split; reflexivity.
Qed.

(** A walk asks every parser once whether it applies, asks every
    applicable parser once to parse, and calls no position beyond the
    chain. *)
Lemma chain_calls_count token raw_data k ps (i : nat) :
  count (is_should_parse_of (k + i)) (chain_calls token raw_data k ps)
  = match ps !! i with Some _ => 1%nat | None => 0%nat end
  /\ count (is_parse_of (k + i)) (chain_calls token raw_data k ps)
    = match ps !! i with
      | Some p => if applicable token raw_data p then 1%nat else 0%nat
      | None => 0%nat
      end.
Proof.
  revert k i. induction ps as [|p ps IH]; intros k i; simpl; [split; reflexivity|].
  rewrite !count_app. destruct i as [|i]; simpl.
  - rewrite Nat.add_0_r, Nat.eqb_refl.
    destruct (chain_calls_below token raw_data (S k) ps k ltac:(lia)) as [E1 E2].
    rewrite E1, E2.
    destruct (applicable token raw_data p); simpl; rewrite ?Nat.eqb_refl;
      split; reflexivity.
  - assert (E : (k =? k + S i)%nat = false) by (apply Nat.eqb_neq; lia).
    rewrite E.
    destruct (IH (S k) i) as [IH1 IH2].
    replace (S k + i)%nat with (k + S i)%nat in IH1, IH2 by lia.
    rewrite IH1, IH2.
    destruct (applicable token raw_data p); simpl; rewrite ?E; split; reflexivity.
Qed.

(** Whatever the policy and the parsers, the loop raises nothing and
    calls parsers only, all with the same content. *)
Lemma parsers_loop_total token raw_data sel ps k possible_metadatas :
  exists l ex,
    parsers_loop token raw_data sel k ps possible_metadatas = (l, Returned ex)
    /\ Forall (parser_call_with raw_data) l.
Proof.
  revert k possible_metadatas.
  induction ps as [|p ps IH]; intros k possible_metadatas; simpl.
  - eexists _, _. split; [reflexivity|constructor].
  - unfold call_should_parse_token, call_parse_metadata. simpl.
    destruct (should_parse_token p token raw_data); simpl.
    + destruct (parse_metadata p token raw_data) as [m|e]; simpl.
      * destruct sel as [f|]; simpl.
        -- destruct (IH (S k) (possible_metadatas ++ [IsMetadata m]))
             as (l & ex & -> & Hl).
           eexists _, _. split; [reflexivity|].
           repeat (constructor; [repeat split|]). exact Hl.
        -- eexists _, _. split; [reflexivity|].
           repeat (constructor; [repeat split|]). constructor.
      * destruct (IH (S k) (possible_metadatas
                            ++ [IsError (from_token_and_error token e)]))
          as (l & ex & -> & Hl).
        eexists _, _. split; [reflexivity|].
        repeat (constructor; [repeat split|]). exact Hl.
    + destruct (IH (S k) possible_metadatas) as (l & ex & -> & Hl).
      eexists _, _. split; [reflexivity|].
      constructor; [repeat split|]. exact Hl.
Qed.

(** **** One token *)

(** A retrieval that raises ends the resolution at once: the exception
    is not caught. *)
Lemma fetch_token_metadata_raised self token sel (e : exn) :
  fetch_content (fetcher self) (uri token) = Raised e ->
  fetch_token_metadata self token sel = ([FetchContent (uri token)], Raised e).
Proof.
  intros H. unfold fetch_token_metadata, call_fetch_content. simpl. rewrite H.
  reflexivity.
Qed.

Lemma fetch_token_metadata_selector self token raw_data f :
  fetch_content (fetcher self) (uri token) = Returned raw_data ->
  fetch_token_metadata self token (Some f)
  = (FetchContent (uri token)
       :: chain_calls token raw_data 0 (parsers self)
       ++ [SelectorFn (final_candidates token raw_data (parsers self))],
     Returned (f (final_candidates token raw_data (parsers self)))).
Proof.
  intros H. unfold fetch_token_metadata, call_fetch_content. simpl. rewrite H.
  rewrite parsers_loop_selector. simpl. reflexivity.
Qed.

Lemma final_candidates_head token raw_data ps :
  final_candidates token raw_data ps !! 0%nat
  = Some (match candidates token raw_data ps with
          | [] => no_parsers_found token
          | c :: _ => c
          end).
Proof.
  unfold final_candidates. destruct (candidates token raw_data ps); reflexivity.
Qed.

Lemma fetch_token_metadata_no_success self token raw_data :
  fetch_content (fetcher self) (uri token) = Returned raw_data ->
  Forall (fun p => applicable token raw_data p = true ->
                   succeeds token raw_data p = false) (parsers self) ->
  fetch_token_metadata self token None
  = (FetchContent (uri token) :: chain_calls token raw_data 0 (parsers self),
     Returned (match candidates token raw_data (parsers self) with
               | [] => no_parsers_found token
               | c :: _ => c
               end)).
Proof.
  intros H Hall. unfold fetch_token_metadata, call_fetch_content. simpl. rewrite H.
  rewrite parsers_loop_no_success by exact Hall. simpl.
  destruct (candidates token raw_data (parsers self)); simpl;
    rewrite app_nil_r; reflexivity.
Qed.

Lemma fetch_token_metadata_first_success self token raw_data pre p post (m : Metadata) :
  fetch_content (fetcher self) (uri token) = Returned raw_data ->
  parsers self = pre ++ p :: post ->
  Forall (fun q => applicable token raw_data q = true ->
                   succeeds token raw_data q = false) pre ->
  applicable token raw_data p = true ->
  parse_metadata p token raw_data = Returned m ->
  fetch_token_metadata self token None
  = (FetchContent (uri token) :: chain_calls token raw_data 0 (pre ++ [p]),
     Returned (IsMetadata m)).
Proof.
  intros H Hps Hpre Hp Hm. unfold fetch_token_metadata, call_fetch_content. simpl.
  rewrite H, Hps.
  rewrite (parsers_loop_first_success token raw_data pre p post m) by assumption.
  simpl. rewrite app_nil_r. reflexivity.
Qed.

(** Once the content is retrieved, the resolution returns an outcome;
    its log is the fetch, calls to parsers with that content, and at
    most one call of the policy at the end. *)
Lemma fetch_token_metadata_returned self token sel raw_data :
  fetch_content (fetcher self) (uri token) = Returned raw_data ->
  exists l tail o,
    fetch_token_metadata self token sel
    = (FetchContent (uri token) :: l ++ tail, Returned o)
    /\ Forall (parser_call_with raw_data) l
    /\ (tail = [] \/ exists cs, tail = [SelectorFn cs]).
Proof.
  intros H. unfold fetch_token_metadata, call_fetch_content. simpl. rewrite H.
  destruct (parsers_loop_total token raw_data sel (parsers self) 0 [])
    as (l & ex & -> & Hl).
  destruct ex as [o|possible_metadatas]; simpl.
  - exists l, [], o. repeat split; [assumption|left; reflexivity].
  - destruct sel as [f|]; simpl.
    + eexists l, _, _. split; [reflexivity|]. split; [assumption|].
      right. eexists. reflexivity.
    + destruct possible_metadatas as [|c cs]; simpl;
        eexists l, [], _; repeat split; try assumption; left; reflexivity.
Qed.

(** **** A batch *)

Lemma list_map_returned {A B} (g : A -> result B) (l : list A) (r : list B) :
  list_map g l = Returned r -> Forall2 (fun x y => g x = Returned y) l r.
Proof.
  revert r. induction l as [|x l IH]; simpl; intros r Hr.
  - injection Hr as <-. constructor.
  - destruct (g x) as [y|e] eqn:Ex; simpl in Hr; [|discriminate].
    destruct (list_map g l) as [ys|e]; simpl in Hr; [|discriminate].
    injection Hr as <-. constructor; [exact Ex|]. apply IH. reflexivity.
Qed.

Lemma list_map_all_return {A B} (g : A -> result B) (l : list A) :
  Forall (fun x => exists y, g x = Returned y) l ->
  exists r, list_map g l = Returned r.
Proof.
  induction 1 as [|x l [y Hy] _ [r IH]]; simpl.
  - eexists. reflexivity.
  - rewrite Hy, IH. simpl. eexists. reflexivity.
Qed.

Lemma list_map_raises {A B} (g : A -> result B) (l : list A) (x : A) (e : exn) :
  x ∈ l -> g x = Raised e -> exists e', list_map g l = Raised e'.
Proof.
  intros Hin Hx. induction Hin as [x l|x y l _ IH]; simpl.
  - rewrite Hx. simpl. eexists. reflexivity.
  - destruct (g y) as [v|e']; simpl; [|eexists; reflexivity].
    destruct (IH Hx) as [e' ->]. simpl. eexists. reflexivity.
Qed.

(** Parallel or not, [run] returns or raises what the in-order
    resolution of the tokens, one after the other, returns or raises. *)
Lemma run_result (cpu_count : nat) self (tokens : list Token) (parallelize : bool) sel :
  result_of (run cpu_count self tokens parallelize sel)
  = list_map (resolve self sel) tokens.
Proof.
  unfold run. destruct tokens as [|t tokens]; [reflexivity|].
  cbn [length Nat.eqb]. destruct parallelize.
  - apply (ConcurrencyFacts.batched_parmap_result cpu_count (resolve self sel)). lia.
  - reflexivity.
Qed.

(** When the content of every token can be retrieved, [run] returns
    one outcome per token, in the order of the tokens. *)
Lemma run_outcomes_in_order (cpu_count : nat) self (tokens : list Token)
  (parallelize : bool) sel :
  Forall (fun t => exists raw_data,
            fetch_content (fetcher self) (uri t) = Returned raw_data) tokens ->
  exists outcomes,
    result_of (run cpu_count self tokens parallelize sel) = Returned outcomes
    /\ length outcomes = length tokens
    /\ Forall2 (fun t o => resolve self sel t = Returned o) tokens outcomes.
Proof.
  intros Hall. rewrite run_result.
  destruct (list_map_all_return (resolve self sel) tokens) as [r Hr].
  - eapply Forall_impl; [exact Hall|]. intros t [raw_data Ht]. unfold resolve.
    destruct (fetch_token_metadata_returned self t sel raw_data Ht)
      as (l & tail & o & -> & _). exists o. reflexivity.
  - exists r. split; [exact Hr|]. split.
    + eapply ConcurrencyFacts.list_map_length. exact Hr.
    + apply list_map_returned. exact Hr.
Qed.

(** **** The candidates of a chain *)

Lemma filter_applicable_none token raw_data ps :
  Forall (fun p => applicable token raw_data p = false) ps ->
  List.filter (applicable token raw_data) ps = [].
Proof.
  induction 1 as [|p ps Hp _ IH]; simpl; [reflexivity|]. rewrite Hp. exact IH.
Qed.

Lemma candidates_none token raw_data ps :
  Forall (fun p => applicable token raw_data p = false) ps ->
  candidates token raw_data ps = [].
Proof.
  intros H. unfold candidates. rewrite filter_applicable_none by exact H.
  reflexivity.
Qed.

Lemma candidates_first_applicable token raw_data pre p post :
  Forall (fun q => applicable token raw_data q = false) pre ->
  applicable token raw_data p = true ->
  candidates token raw_data (pre ++ p :: post)
  = candidate token raw_data p :: candidates token raw_data post.
Proof.
  intros Hpre Hp. unfold candidates. rewrite List.filter_app.
  rewrite filter_applicable_none by exact Hpre. simpl. rewrite Hp. reflexivity.
Qed.

(** **** The claims on the resolution of one token *)

(** C1 (the code departs from the claim). When the content retrieval
    of a token raises, [fetch_token_metadata] calls no parser, as the
    claim says, but it emits no [MetadataProcessingError]: the exception
    leaves [fetch_token_metadata], and [run] raises instead of returning
    outcomes for every batch that holds such a token, parallel or not. *)
Theorem retrieval_failure_propagates (cpu_count : nat) self (tokens : list Token)
  token sel (parallelize : bool) (e : exn) :
  fetch_content (fetcher self) (uri token) = Raised e ->
  token ∈ tokens ->
  fetch_token_metadata self token sel = ([FetchContent (uri token)], Raised e)
  /\ (forall j, count (is_should_parse_of j)
                  (log_of (fetch_token_metadata self token sel)) = 0%nat
               /\ count (is_parse_of j)
                    (log_of (fetch_token_metadata self token sel)) = 0%nat)
  /\ exists e', result_of (run cpu_count self tokens parallelize sel) = Raised e'.
Proof.
  intros He Hin. rewrite (fetch_token_metadata_raised self token sel e He).
  split; [reflexivity|]. split; [intros j; split; reflexivity|].
  rewrite run_result. apply (list_map_raises _ tokens token e Hin).
  unfold resolve. rewrite (fetch_token_metadata_raised self token sel e He).
  reflexivity.
Qed.

(** C5. Without a selection policy, once the content is retrieved: if
    the parser [p] is applicable and its interpretation succeeds (no
    applicable parser before it having succeeded), the metadata of [p]
    is the outcome of the token, [p] is asked to parse once, and no
    parser after [p] is called at all; every applicable parser before
    [p], whose interpretation failed, was tried once. On a failure of an
    applicable parser the loop appends the error built from the token
    and the exception to the candidates and goes on with the next
    parser. *)
Theorem short_circuit_without_policy self token raw_data :
  fetch_content (fetcher self) (uri token) = Returned raw_data ->
  (forall pre p post (m : Metadata),
      parsers self = pre ++ p :: post ->
      Forall (fun q => applicable token raw_data q = true ->
                       succeeds token raw_data q = false) pre ->
      applicable token raw_data p = true ->
      parse_metadata p token raw_data = Returned m ->
      result_of (fetch_token_metadata self token None) = Returned (IsMetadata m)
      /\ count (is_parse_of (length pre))
            (log_of (fetch_token_metadata self token None)) = 1%nat
      /\ (forall j, (length pre < j)%nat ->
            count (is_should_parse_of j)
              (log_of (fetch_token_metadata self token None)) = 0%nat
            /\ count (is_parse_of j)
                 (log_of (fetch_token_metadata self token None)) = 0%nat)
      /\ (forall j q, pre !! j = Some q -> applicable token raw_data q = true ->
            count (is_parse_of j)
              (log_of (fetch_token_metadata self token None)) = 1%nat))
  /\ (forall q ps (e : exn) k possible_metadatas,
        applicable token raw_data q = true ->
        parse_metadata q token raw_data = Raised e ->
        parsers_loop token raw_data None k (q :: ps) possible_metadatas
        = (ShouldParseToken k token raw_data :: ParseMetadata k token raw_data
             :: log_of (parsers_loop token raw_data None (S k) ps
                          (possible_metadatas
                           ++ [IsError (from_token_and_error token e)])),
           result_of (parsers_loop token raw_data None (S k) ps
                        (possible_metadatas
                         ++ [IsError (from_token_and_error token e)])))).
Proof.
  intros Hfetch. split.
  - intros pre p post m Hps Hpre Hp Hm.
    rewrite (fetch_token_metadata_first_success self token raw_data pre p post m)
      by assumption.
    simpl. split; [reflexivity|].
    assert (Hcount : forall i,
               count (is_should_parse_of i)
                 (chain_calls token raw_data 0 (pre ++ [p]))
               = match (pre ++ [p]) !! i with Some _ => 1%nat | None => 0%nat end
               /\ count (is_parse_of i)
                    (chain_calls token raw_data 0 (pre ++ [p]))
                  = match (pre ++ [p]) !! i with
                    | Some x => if applicable token raw_data x then 1%nat else 0%nat
                    | None => 0%nat
                    end)
      by (intros i; exact (chain_calls_count token raw_data 0 (pre ++ [p]) i)).
    split; [|split].
    + rewrite (proj2 (Hcount (length pre))).
      rewrite list_lookup_middle by reflexivity. rewrite Hp. reflexivity.
    + intros j Hj. destruct (Hcount j) as [H1 H2]. rewrite H1, H2.
      rewrite lookup_ge_None_2 by (rewrite length_app; simpl; lia).
      split; reflexivity.
    + intros j q Hq Happ. rewrite (proj2 (Hcount j)).
      rewrite lookup_app_l by (eapply lookup_lt_Some; exact Hq).
      rewrite Hq, Happ. reflexivity.
  - intros q ps e k possible_metadatas Hq He. simpl.
    unfold call_should_parse_token, call_parse_metadata, applicable in *. simpl.
    rewrite Hq. simpl. rewrite He. simpl.
    destruct (parsers_loop token raw_data None (S k) ps _) as [l r]. reflexivity.
Qed.

(** C6. With a selection policy [f], once the content is retrieved:
    every parser of the chain is asked once whether it applies, every
    applicable parser is asked to parse exactly once whatever the
    earlier parsers returned, the candidates are the results of the
    applicable parsers in chain order (metadata for a success, an error
    for a failure; the single error [No parsers found.] when there is
    none), the policy is called once, on that list, and what it returns
    is the outcome of the token. *)
Theorem exhaustive_with_policy self token raw_data f :
  fetch_content (fetcher self) (uri token) = Returned raw_data ->
  result_of (fetch_token_metadata self token (Some f))
  = Returned (f (final_candidates token raw_data (parsers self)))
  /\ log_of (fetch_token_metadata self token (Some f))
    = FetchContent (uri token)
        :: chain_calls token raw_data 0 (parsers self)
        ++ [SelectorFn (final_candidates token raw_data (parsers self))]
  /\ (forall j p, parsers self !! j = Some p ->
        count (is_should_parse_of j)
          (log_of (fetch_token_metadata self token (Some f))) = 1%nat
        /\ count (is_parse_of j)
             (log_of (fetch_token_metadata self token (Some f)))
           = if applicable token raw_data p then 1%nat else 0%nat)
  /\ count is_selector (log_of (fetch_token_metadata self token (Some f))) = 1%nat
  /\ (candidates token raw_data (parsers self) <> [] ->
      final_candidates token raw_data (parsers self)
      = map (candidate token raw_data)
            (List.filter (applicable token raw_data) (parsers self)))
  /\ (candidates token raw_data (parsers self) = [] ->
      final_candidates token raw_data (parsers self) = [no_parsers_found token]).
Proof.
  intros Hfetch. rewrite (fetch_token_metadata_selector self token raw_data f Hfetch).
  simpl. split; [reflexivity|]. split; [reflexivity|].
  pose proof (chain_calls_shape token raw_data 0 (parsers self)) as Hshape.
  split; [|split; [|split]].
  - intros j p Hj.
    destruct (chain_calls_count token raw_data 0 (parsers self) j) as [H1 H2].
    simpl in H1, H2. rewrite !count_app, H1, H2, Hj. simpl. split; lia.
  - rewrite count_app. rewrite count_none; [reflexivity|].
    eapply Forall_impl; [exact Hshape|]. intros c (_ & Hc & _). exact Hc.
  - intros Hne. unfold final_candidates.
    destruct (candidates token raw_data (parsers self)) eqn:E; [congruence|].
    simpl. rewrite <- E. reflexivity.
  - intros Hnil. unfold final_candidates. rewrite Hnil. reflexivity.
Qed.

(** C7. Without a selection policy, once the content is retrieved and
    when no applicable parser succeeds: if no parser of the chain is
    applicable, the outcome is the single error [No parsers found.] for
    the token; otherwise the outcome is the first candidate recorded,
    the error of the first applicable parser in chain order. *)
Theorem no_success_without_policy self token raw_data :
  fetch_content (fetcher self) (uri token) = Returned raw_data ->
  Forall (fun p => applicable token raw_data p = true ->
                   succeeds token raw_data p = false) (parsers self) ->
  (Forall (fun p => applicable token raw_data p = false) (parsers self) ->
     result_of (fetch_token_metadata self token None)
     = Returned (IsError (from_token_and_error token (Exception "No parsers found."))))
  /\ (forall pre p post (e : exn),
        parsers self = pre ++ p :: post ->
        Forall (fun q => applicable token raw_data q = false) pre ->
        applicable token raw_data p = true ->
        parse_metadata p token raw_data = Raised e ->
        result_of (fetch_token_metadata self token None)
        = Returned (IsError (from_token_and_error token e))
        /\ candidates token raw_data (parsers self) !! 0%nat
           = Some (IsError (from_token_and_error token e))).
Proof.
  intros Hfetch Hall.
  rewrite (fetch_token_metadata_no_success self token raw_data Hfetch Hall). simpl.
  split.
  - intros Hnone. rewrite candidates_none by exact Hnone. reflexivity.
  - intros pre p post e Hps Hpre Hp He. rewrite Hps.
    rewrite candidates_first_applicable by assumption.
    unfold candidate. rewrite He. split; reflexivity.
Qed.

(** C8. In one call of [fetch_token_metadata] the fetcher is called
    exactly once, first, whatever the policy, the number of parsers
    consulted and the number of interpretations that fail; every call to
    a parser hands it the content this one fetch returned. *)
Theorem content_fetched_once self token sel :
  count is_fetch (log_of (fetch_token_metadata self token sel)) = 1%nat
  /\ head (log_of (fetch_token_metadata self token sel))
    = Some (FetchContent (uri token))
  /\ (forall c (r : RawData),
        c ∈ log_of (fetch_token_metadata self token sel) ->
        content_of c = Some r ->
        fetch_content (fetcher self) (uri token) = Returned r).
Proof.
  destruct (fetch_content (fetcher self) (uri token)) as [raw_data|e] eqn:Hfetch.
  - destruct (fetch_token_metadata_returned self token sel raw_data Hfetch)
      as (l & tail & o & -> & Hl & Htail).
    simpl. split; [|split; [reflexivity|]].
    + rewrite count_app. rewrite (count_none is_fetch l).
      * destruct Htail as [->|[cs ->]]; reflexivity.
      * eapply Forall_impl; [exact Hl|]. intros c (Hc & _). exact Hc.
    + intros c r Hin Hc. apply elem_of_cons in Hin as [->|Hin]; [discriminate|].
      apply elem_of_app in Hin as [Hin|Hin].
      * rewrite Forall_forall in Hl. destruct (Hl c Hin) as (_ & _ & Hr).
        congruence.
      * destruct Htail as [->|[cs ->]].
        -- inversion Hin.
        -- apply list_elem_of_singleton in Hin as ->. discriminate.
  - rewrite (fetch_token_metadata_raised self token sel e Hfetch). simpl.
    split; [reflexivity|]. split; [reflexivity|].
    intros c r Hin Hc. apply list_elem_of_singleton in Hin as ->. discriminate.
Qed.

End Resolution.

(** **** The claims on batches *)

Section Batches.
Variable cpu_count : nat.
Context {T U : Type}.
Implicit Types (fn : T -> result U) (args : list T).

Lemma list_map_concat fn (bl : list (list T)) :
  list_map fn (concat bl) = result_map (@concat U) (list_map (list_map fn) bl).
Proof.
  induction bl as [|b bl IH]; simpl; [reflexivity|].
  rewrite ConcurrencyFacts.list_map_app, IH.
  destruct (list_map fn b) as [r1|e]; simpl; [|reflexivity].
  unfold result_map. destruct (list_map (list_map fn) bl); reflexivity.
Qed.

(** C3 (amended). For a batch size of at least one, [batched_parmap]
    cuts its input into contiguous batches of one to [batch_size] items
    (end to end they are the input), hands the batches to [parmap] one
    after the other in that order, one pool per batch, and returns the
    per-batch results concatenated in order. The default of its
    [batch_size] parameter is 10; 15 is the batch size [run] passes. *)
Theorem batched_parmap_batching fn args (batch_size : Z) :
  1 <= batch_size ->
  (exists bl : list (list T),
      batches args batch_size = Returned bl
      /\ concat bl = args
      /\ Forall (fun b => (1 <= length b)%nat /\ Z.of_nat (length b) <= batch_size) bl
      /\ batched_parmap cpu_count fn args batch_size = dispatch cpu_count fn bl []
      /\ result_of (batched_parmap cpu_count fn args batch_size)
         = result_map (@concat U) (list_map (list_map fn) bl)
      /\ (forall r, list_map fn args = Returned r ->
            log_of (batched_parmap cpu_count fn args batch_size)
            = map (fun b => Debug "Starting tasks" (Z.of_nat (length b))) bl))
  /\ batch_size_default = 10
  /\ (forall (RawData Metadata : Type) (self : Pipeline RawData Metadata)
             (tokens : list Token) (sel : option (Selector Metadata)),
        tokens <> [] ->
        run cpu_count self tokens true sel
        = batched_parmap cpu_count (resolve self sel) tokens 15).
Proof.
  intros Hbs. split; [|split; [reflexivity|]].
  - destruct (ConcurrencyFacts.batches_partition args batch_size Hbs)
      as (bl & Hbl & Hcat & Hall).
    assert (Hne : Forall (fun b : list T => (1 <= length b)%nat) bl)
      by (eapply Forall_impl; [exact Hall|]; simpl; tauto).
    exists bl. split; [exact Hbl|]. split; [exact Hcat|]. split; [exact Hall|].
    rewrite (ConcurrencyFacts.batched_parmap_dispatch cpu_count fn args batch_size bl Hbl).
    split; [reflexivity|]. split.
    + rewrite ConcurrencyFacts.dispatch_result by exact Hne.
      rewrite list_map_concat. unfold result_map.
      destruct (list_map (list_map fn) bl); reflexivity.
    + intros r Hr. rewrite <- Hcat in Hr.
      apply (ConcurrencyFacts.dispatch_log cpu_count fn bl [] r Hne Hr).
  - intros RawData Metadata self tokens sel Hne. unfold run.
    destruct tokens; [congruence|reflexivity].
Qed.

(** C9. On the empty list [parmap] raises: the pool is asked for
    [min(0, MAX_PROCS) = 0] workers and refuses, so [parmap] does not
    return the empty list the sequential map returns. [batched_parmap]
    (with a batch size other than zero) returns the empty list and logs
    no start of tasks, its loop having no index; [run] returns the empty
    list on the empty token list before any dispatch, parallel or not. *)
Theorem empty_input fn (batch_size : Z) (RawData Metadata : Type)
  (self : Pipeline RawData Metadata) (parallelize : bool)
  (sel : option (Selector Metadata)) :
  batch_size <> 0 ->
  parmap cpu_count fn []
  = ([Debug "Starting tasks" 0],
     Raised (ValueError "max_workers must be greater than 0"))
  /\ Z.min 0 (MAX_PROCS cpu_count) = 0
  /\ result_of (parmap cpu_count fn []) <> list_map fn []
  /\ batched_parmap cpu_count fn [] batch_size = ([], Returned [])
  /\ run cpu_count self [] parallelize sel = ([], Returned []).
Proof.
  intros Hbs.
  assert (Hmin : Z.min 0 (MAX_PROCS cpu_count) = 0)
    by (pose proof (ConcurrencyFacts.MAX_PROCS_pos cpu_count); lia).
  assert (Hpar : parmap cpu_count fn []
                 = ([Debug "Starting tasks" 0],
                    Raised (ValueError "max_workers must be greater than 0"))).
  { rewrite ConcurrencyFacts.parmap_unfold.
    change (Z.of_nat (length (@nil T))) with 0. rewrite Hmin. reflexivity. }
  split; [exact Hpar|]. split; [exact Hmin|]. split; [|split].
  - rewrite Hpar. simpl. discriminate.
  - unfold batched_parmap, py_range.
    change (Z.of_nat (length (@nil T))) with 0.
    destruct (Z.eqb_spec batch_size 0); [contradiction|].
    destruct (0 <? batch_size); reflexivity.
  - reflexivity.
Qed.

End Batches.

(** **** Sample runs *)

Import Examples.

(** The batch of the specification's scenario without its unreachable
    token: the outcomes come back in the order of the tokens. *)
Example run_sample :
  forall parallelize : bool,
    result_of (run 4 sample_pipeline [T1; T3; T4] parallelize None)
    = Returned [IsMetadata "first:ipfs://one"; IsMetadata "second:data:three";
                no_parsers_found T4].
Proof. intros []; reflexivity. Qed.

(** C2 (the code departs from the claim). On the three tokens
    [T1; T2; T3], of which the content of [T2] cannot be retrieved, [run]
    returns no list of three outcomes: parallel or not, it raises the
    exception of the fetcher. *)
Theorem run_raises_on_retrieval_failure :
  forall parallelize : bool,
    result_of (run 4 sample_pipeline [T1; T2; T3] parallelize None)
    = Raised (Exception "Don't know how to fetch metadata").
Proof. intros []; reflexivity. Qed.

(** The default batch size is not 15: fifteen items go through two
    pools, of ten and of five tasks, with the default, and through one
    pool with a batch size of 15. *)
Lemma default_batch_size_is_not_15 :
  batch_size_default <> 15
  /\ log_of (batched_parmap 4 double fifteen batch_size_default)
     = [Debug "Starting tasks" 10; Debug "Starting tasks" 5]
  /\ log_of (batched_parmap 4 double fifteen 15) = [Debug "Starting tasks" 15].
Proof. split; [discriminate|]. split; reflexivity. Qed.

Lemma retrieval_failure_propagates_witness :
  (fetch_content (fetcher sample_pipeline) (uri T2)
   = Raised (Exception "Don't know how to fetch metadata")
   /\ T2 ∈ [T1; T2; T3])
  /\ fetch_token_metadata sample_pipeline T2 None
     = ([FetchContent (uri T2)], Raised (Exception "Don't know how to fetch metadata"))
  /\ exists e', result_of (run 4 sample_pipeline [T1; T2; T3] true None) = Raised e'.
Proof.
  assert (Hin : T2 ∈ [T1; T2; T3]) by (repeat constructor).
  split; [split; [reflexivity|exact Hin]|].
  destruct (retrieval_failure_propagates string string 4 sample_pipeline
              [T1; T2; T3] T2 None true _ eq_refl Hin) as (H1 & _ & H3).
  split; assumption.
Defined.

Lemma short_circuit_without_policy_witness :
  fetch_content (fetcher sample_pipeline) (uri T1) = Returned "ipfs://one"
  /\ result_of (fetch_token_metadata sample_pipeline T1 None)
     = Returned (IsMetadata "first:ipfs://one")
  /\ count (is_should_parse_of 1) (log_of (fetch_token_metadata sample_pipeline T1 None))
     = 0%nat
  /\ count (is_parse_of 1) (log_of (fetch_token_metadata sample_pipeline T1 None))
     = 0%nat.
Proof.
  split; [reflexivity|].
  destruct (proj1 (short_circuit_without_policy string string sample_pipeline T1
                     "ipfs://one" eq_refl)
              [] first_parser [second_parser] "first:ipfs://one"
              eq_refl ltac:(constructor) eq_refl eq_refl) as (H1 & _ & H3 & _).
  split; [exact H1|]. exact (H3 1%nat ltac:(simpl; lia)).
Defined.

Lemma exhaustive_with_policy_witness :
  fetch_content (fetcher sample_pipeline) (uri T3) = Returned "data:three"
  /\ result_of (fetch_token_metadata sample_pipeline T3 (Some last_candidate))
     = Returned (IsMetadata "second:data:three")
  /\ count (is_parse_of 0)
       (log_of (fetch_token_metadata sample_pipeline T3 (Some last_candidate))) = 1%nat
  /\ count (is_parse_of 1)
       (log_of (fetch_token_metadata sample_pipeline T3 (Some last_candidate))) = 1%nat.
Proof.
  split; [reflexivity|].
  destruct (exhaustive_with_policy string string sample_pipeline T3 "data:three"
              last_candidate eq_refl) as (H1 & _ & H3 & _).
  split; [exact H1|].
  split; [exact (proj2 (H3 0%nat first_parser eq_refl))
         |exact (proj2 (H3 1%nat second_parser eq_refl))].
Defined.

Lemma no_success_without_policy_witness :
  (fetch_content (fetcher failing_pipeline) (uri T1) = Returned "ipfs://one"
   /\ Forall (fun p => applicable T1 "ipfs://one" p = true ->
                       succeeds T1 "ipfs://one" p = false) (parsers failing_pipeline))
  /\ result_of (fetch_token_metadata failing_pipeline T1 None)
     = Returned (IsError (from_token_and_error T1 (Exception "not json"))).
Proof.
  assert (Hall : Forall (fun p => applicable T1 "ipfs://one" p = true ->
                                  succeeds T1 "ipfs://one" p = false)
                   (parsers failing_pipeline))
    by (repeat constructor).
  split; [split; [reflexivity|exact Hall]|].
  exact (proj1 (proj2 (no_success_without_policy string string failing_pipeline T1
                         "ipfs://one" eq_refl Hall)
                  [] (failing_parser "not json") [failing_parser "no image"]
                  (Exception "not json") eq_refl ltac:(constructor) eq_refl eq_refl)).
Defined.

Lemma batched_parmap_batching_witness :
  1 <= 4
  /\ result_of (batched_parmap 4 double fifteen 4)
     = result_map (@concat Z)
         (list_map (list_map double)
            [[1; 2; 3; 4]; [5; 6; 7; 8]; [9; 10; 11; 12]; [13; 14; 15]]).
Proof.
  split; [lia|].
  destruct (proj1 (batched_parmap_batching 4 double fifteen 4 ltac:(lia)))
    as (bl & Hbl & _ & _ & _ & Hres & _).
  vm_compute in Hbl. injection Hbl as <-. exact Hres.
Defined.

Lemma empty_input_witness :
  15 <> 0
  /\ batched_parmap 4 double [] 15 = ([], Returned [])
  /\ run 4 sample_pipeline [] true None = ([], Returned []).
Proof.
  split; [lia|].
  destruct (empty_input 4 double 15 string string sample_pipeline true None
              ltac:(lia)) as (_ & _ & _ & H4 & H5).
  split; assumption.
Defined.

End PipelineFacts.

(** * Further properties of the parallel execution engine *)
Module EngineExtras.

Import Concurrency EngineReference.

Section Engine.
Variable cpu_count : nat.
Context {T U : Type}.
Implicit Types (fn : T -> result U) (args : list T) (bl : list (list T)).

Lemma list_map_first_raise {A B} (g : A -> result B) (pre : list A) (x : A)
  (post : list A) (e : exn) :
  Forall (fun a => returns (g a) = true) pre ->
  g x = Raised e ->
  list_map g (pre ++ x :: post) = Raised e.
Proof.
  intros Hpre Hx. induction Hpre as [|a pre Ha _ IH]; simpl.
  - rewrite Hx. reflexivity.
  - destruct (g a); simpl in *; [|discriminate]. rewrite IH. reflexivity.
Qed.

(** The batches are the consecutive chunks of [batch_size] items, as many
    as needed to cover the list and no more. *)
Lemma batches_chunks args (batch_size : Z) :
  1 <= batch_size ->
  exists n : nat,
    batches args batch_size
    = Returned (map (fun k : nat => take (Z.to_nat batch_size)
                                      (drop (k * Z.to_nat batch_size) args))
                  (seq 0 n))
    /\ Z.of_nat (length args) <= Z.of_nat n * batch_size
    /\ (forall k : nat, (k < n)%nat -> Z.of_nat k * batch_size < Z.of_nat (length args)).
Proof.
  intros Hbs.
  destruct (ConcurrencyFacts.py_range_cover (Z.of_nat (length args)) batch_size
              ltac:(lia) Hbs) as (n & Hrange & Hcover & Hin).
  exists n. split; [|split; assumption].
  unfold batches. rewrite Hrange. simpl. rewrite map_map. f_equal.
  apply map_ext. intros k. apply ConcurrencyFacts.py_slice_batch. exact Hbs.
Qed.

Lemma batches_count args (batch_size : Z) (n : nat) :
  1 <= batch_size ->
  Z.of_nat (length args) <= Z.of_nat n * batch_size ->
  (forall k : nat, (k < n)%nat -> Z.of_nat k * batch_size < Z.of_nat (length args)) ->
  Z.of_nat n = (Z.of_nat (length args) + batch_size - 1) / batch_size.
Proof.
  intros Hbs Hcover Hin.
  apply Z.div_unique with (r := Z.of_nat (length args) + batch_size - 1
                                          - batch_size * Z.of_nat n).
  - left. destruct n as [|n].
    + simpl in *. lia.
    + specialize (Hin n ltac:(lia)). lia.
  - lia.
Qed.

(** The pools started by the loop are those of a prefix of the batches:
    all of them when the loop returns. *)
Lemma dispatch_log_prefix fn bl (results : list U) :
  Forall (fun b => (1 <= length b)%nat) bl ->
  exists n : nat,
    (n <= length bl)%nat
    /\ log_of (dispatch cpu_count fn bl results) = map started (take n bl)
    /\ (returns (result_of (dispatch cpu_count fn bl results)) = true -> n = length bl).
Proof.
  intros Hbl. revert results.
  induction Hbl as [|b bl Hb _ IH]; intros results; simpl.
  - exists 0%nat. repeat split; lia.
  - rewrite ConcurrencyFacts.parmap_nonempty by exact Hb.
    destruct (list_map fn b) as [res|e]; simpl.
    + destruct (IH (results ++ res)) as (n & Hn & Hlog & Hret).
      destruct (dispatch cpu_count fn bl (results ++ res)) as [l r]. simpl in *.
      exists (S n). split; [lia|]. split; [rewrite Hlog; reflexivity|].
      intros H. rewrite (Hret H). reflexivity.
    + exists 1%nat. split; [lia|]. split; [destruct bl; reflexivity|discriminate].
Qed.

(** The batches before a failing one are dispatched, the failing one is,
    and the loop ends there. *)
Lemma dispatch_stops fn (pre : list (list T)) (b : list T) (post : list (list T))
  (results r : list U) (e : exn) :
  Forall (fun b => (1 <= length b)%nat) (pre ++ b :: post) ->
  list_map fn (concat pre) = Returned r ->
  list_map fn b = Raised e ->
  dispatch cpu_count fn (pre ++ b :: post) results
  = (map started (pre ++ [b]), Raised e).
Proof.
  revert results r. induction pre as [|a pre IH]; intros results r Hne Hr Hb; simpl.
  - rewrite ConcurrencyFacts.parmap_nonempty by (inversion Hne; assumption).
    rewrite Hb. reflexivity.
  - inversion Hne as [|? ? Ha Hrest]; subst.
    rewrite ConcurrencyFacts.parmap_nonempty by exact Ha.
    simpl in Hr. rewrite ConcurrencyFacts.list_map_app in Hr.
    destruct (list_map fn a) as [ra|ea]; simpl in *; [|discriminate].
    unfold result_map in Hr.
    destruct (list_map fn (concat pre)) as [rp|ep] eqn:Ep; simpl in Hr; [|discriminate].
    rewrite (IH (results ++ ra) rp Hrest eq_refl Hb). reflexivity.
Qed.

(** X1. When [fn] raises on an item and returns on all the items before
    it, [parmap] raises the exception of that item, the first failing one
    in input order, whatever the later items do; the pool was started for
    all the items. *)
Theorem parmap_raises_first_failure fn (pre : list T) (x : T) (post : list T) (e : exn) :
  Forall (fun a => returns (fn a) = true) pre ->
  fn x = Raised e ->
  parmap cpu_count fn (pre ++ x :: post)
  = ([started (pre ++ x :: post)], Raised e).
Proof.
  intros Hpre Hx.
  rewrite ConcurrencyFacts.parmap_nonempty by (rewrite length_app; simpl; lia).
  rewrite (list_map_first_raise fn pre x post e Hpre Hx). reflexivity.
Qed.

(** X2. The batch size changes how the work is scheduled, not what comes
    back: for any two batch sizes of at least one, [batched_parmap] returns
    the same list or raises the same exception, and on a non-empty input
    this is what a single [parmap] over the whole input gives. *)
Theorem batched_parmap_any_batch_size fn args (bs1 bs2 : Z) :
  1 <= bs1 -> 1 <= bs2 ->
  result_of (batched_parmap cpu_count fn args bs1)
  = result_of (batched_parmap cpu_count fn args bs2)
  /\ (args <> [] ->
      result_of (batched_parmap cpu_count fn args bs1)
      = result_of (parmap cpu_count fn args)).
Proof.
  intros H1 H2.
  rewrite !ConcurrencyFacts.batched_parmap_result by assumption.
  split; [reflexivity|]. intros Hne.
  rewrite ConcurrencyFacts.parmap_nonempty by (destruct args; [congruence|simpl; lia]).
  reflexivity.
Qed.

(** The pools of [batched_parmap]: their sizes and their number. *)
Lemma batched_parmap_log_shape fn args (batch_size : Z) :
  1 <= batch_size ->
  Forall (fun r => log_msg r = "Starting tasks" /\ 1 <= num_tasks r <= batch_size)
         (log_of (batched_parmap cpu_count fn args batch_size))
  /\ Z.of_nat (length (log_of (batched_parmap cpu_count fn args batch_size)))
     <= (Z.of_nat (length args) + batch_size - 1) / batch_size
  /\ (forall r, result_of (batched_parmap cpu_count fn args batch_size) = Returned r ->
        Z.of_nat (length (log_of (batched_parmap cpu_count fn args batch_size)))
        = (Z.of_nat (length args) + batch_size - 1) / batch_size
        /\ list_sum (map (fun rec => Z.to_nat (num_tasks rec))
                         (log_of (batched_parmap cpu_count fn args batch_size)))
           = length args).
Proof.
  intros Hbs.
  destruct (batches_chunks args batch_size Hbs) as (n & Hbl & Hcover & Hin).
  pose proof (batches_count args batch_size n Hbs Hcover Hin) as Hn.
  destruct (ConcurrencyFacts.batches_partition args batch_size Hbs)
    as (bl & Hbl' & Hcat & Hall).
  rewrite Hbl in Hbl'. injection Hbl' as Hbl'.
  assert (Hlen : length bl = n) by (rewrite <- Hbl', length_map, length_seq; reflexivity).
  assert (Hne : Forall (fun b : list T => (1 <= length b)%nat) bl)
    by (eapply Forall_impl; [exact Hall|]; simpl; tauto).
  rewrite Hbl' in Hbl.
  rewrite (ConcurrencyFacts.batched_parmap_dispatch cpu_count fn args batch_size bl Hbl).
  destruct (dispatch_log_prefix fn bl [] Hne) as (m & Hm & Hlog & Hret).
  rewrite Hlog. split; [|split].
  - apply Forall_map. apply Forall_take. eapply Forall_impl; [exact Hall|].
    simpl. intros b [H1 H2]. split; [reflexivity|lia].
  - rewrite length_map, length_take. lia.
  - intros r Hr. rewrite Hr in Hret. specialize (Hret eq_refl). subst m.
    rewrite firstn_all. rewrite length_map. split; [lia|].
    rewrite map_map. simpl.
    erewrite map_ext by (intros b; apply Nat2Z.id).
    rewrite <- length_concat, Hcat. reflexivity.
Qed.

(** X3. With a batch size of at least one, every pool [batched_parmap]
    starts has between one and [batch_size] tasks, also when a call
    raises; the number of pools never exceeds the input length divided by
    the batch size, rounded up, and when [batched_parmap] returns it is
    exactly that, the tasks of the pools adding up to the input length. *)
Theorem batched_parmap_pools fn args (batch_size : Z) :
  1 <= batch_size ->
  Forall (fun r => log_msg r = "Starting tasks" /\ 1 <= num_tasks r <= batch_size)
         (log_of (batched_parmap cpu_count fn args batch_size))
  /\ Z.of_nat (length (log_of (batched_parmap cpu_count fn args batch_size)))
     <= (Z.of_nat (length args) + batch_size - 1) / batch_size
  /\ (forall r, result_of (batched_parmap cpu_count fn args batch_size) = Returned r ->
        Z.of_nat (length (log_of (batched_parmap cpu_count fn args batch_size)))
        = (Z.of_nat (length args) + batch_size - 1) / batch_size
        /\ list_sum (map (fun rec => Z.to_nat (num_tasks rec))
                         (log_of (batched_parmap cpu_count fn args batch_size)))
           = length args).
Proof. exact (batched_parmap_log_shape fn args batch_size). Qed.

(** X4. With a batch size of at least one, every batch but the last holds
    exactly [batch_size] items; the last holds between one and
    [batch_size]. *)
Theorem batches_full_but_last args (batch_size : Z) (init : list (list T))
  (last_batch : list T) :
  1 <= batch_size ->
  batches args batch_size = Returned (init ++ [last_batch]) ->
  Forall (fun b => Z.of_nat (length b) = batch_size) init
  /\ 1 <= Z.of_nat (length last_batch) <= batch_size
  /\ Z.of_nat (length args)
     = Z.of_nat (length init) * batch_size + Z.of_nat (length last_batch).
Proof.
  intros Hbs Hbl.
  destruct (batches_chunks args batch_size Hbs) as (n & Hbl' & Hcover & Hin).
  rewrite Hbl' in Hbl. injection Hbl as Hbl.
  destruct n as [|n].
  { simpl in Hbl. destruct init; discriminate. }
  rewrite seq_S, map_app in Hbl. simpl in Hbl.
  apply app_inj_tail in Hbl as [Hinit Hlast].
  assert (Hlen : length init = n) by (rewrite <- Hinit, length_map, length_seq; reflexivity).
  pose proof (Hin n ltac:(lia)) as Hn.
  split; [|split].
  - rewrite <- Hinit. apply Forall_map. apply Forall_forall. intros k Hk.
    apply elem_of_seq in Hk. specialize (Hin (S k) ltac:(lia)).
    rewrite length_take, length_drop. nia.
  - rewrite <- Hlast. rewrite length_take, length_drop. nia.
  - rewrite Hlen, <- Hlast. rewrite length_take, length_drop. nia.
Qed.

(** X5. When the calls of the batches before a batch all return and a
    call of that batch raises, [batched_parmap] raises that exception, has
    started the pools of the batches up to and including that one, and
    starts no pool for the batches after it. *)
Theorem batched_parmap_stops_at_failing_batch fn args (batch_size : Z)
  (pre : list (list T)) (b : list T) (post : list (list T)) (r : list U) (e : exn) :
  1 <= batch_size ->
  batches args batch_size = Returned (pre ++ b :: post) ->
  list_map fn (concat pre) = Returned r ->
  list_map fn b = Raised e ->
  batched_parmap cpu_count fn args batch_size
  = (map started (pre ++ [b]), Raised e).
Proof.
  intros Hbs Hbl Hr Hb.
  destruct (ConcurrencyFacts.batches_partition args batch_size Hbs)
    as (bl & Hbl' & _ & Hall).
  rewrite Hbl in Hbl'. injection Hbl' as <-.
  rewrite (ConcurrencyFacts.batched_parmap_dispatch cpu_count fn args batch_size _ Hbl).
  apply (dispatch_stops fn pre b post [] r e); [|assumption|assumption].
  eapply Forall_impl; [exact Hall|]. simpl. tauto.
Qed.

(** X6. When the batch size is at least the length of a non-empty input,
    [batched_parmap] is one call of [parmap] on the whole input: same log,
    same result. *)
Theorem batched_parmap_single_batch fn args (batch_size : Z) :
  args <> [] ->
  Z.of_nat (length args) <= batch_size ->
  batched_parmap cpu_count fn args batch_size = parmap cpu_count fn args.
Proof.
  intros Hne Hlen.
  assert (Hpos : (1 <= length args)%nat) by (destruct args; [congruence|simpl; lia]).
  assert (Hbs : 1 <= batch_size) by lia.
  destruct (batches_chunks args batch_size Hbs) as (n & Hbl & Hcover & Hin).
  assert (Hn : n = 1%nat).
  { destruct n as [|[|n]]; [simpl in Hcover; lia|reflexivity|].
    specialize (Hin (S n) ltac:(lia)). nia. }
  subst n. simpl in Hbl. rewrite drop_0, take_ge in Hbl by lia.
  rewrite (ConcurrencyFacts.batched_parmap_dispatch cpu_count fn args batch_size _ Hbl).
  simpl. rewrite ConcurrencyFacts.parmap_nonempty by exact Hpos.
  destruct (list_map fn args); reflexivity.
Qed.

(** The variable of the list comprehension ends with the last item. *)
Lemma comprehension_store args (x : T) (st : list T) :
  (length st <= 1)%nat ->
  last args = Some x ->
  fold_left (fun s a => assign 0 a s) args st = [x].
Proof.
  revert st. induction args as [|a args IH]; intros st Hst Hlast; [discriminate|].
  simpl. destruct args as [|a' args].
  - simpl in *. injection Hlast as ->. unfold assign.
    destruct st as [|y [|z st]]; simpl in *; try lia; reflexivity.
  - apply IH.
    + unfold assign. destruct st as [|y [|z st]]; simpl in *; lia.
    + exact Hlast.
Qed.

(** X7. The call the docstring of [parmap] warns against, which hands
    [parallelize_with_threads] the tasks of the list comprehension
    [[lambda: fn(arg) for arg in args]], does corrupt the results: on a non-empty input every task computes [fn] of
    the last item, so the result is that of mapping the constant function
    [fn(args[-1])] over the input. *)
Theorem comprehension_computes_last fn args (x : T) :
  last args = Some x ->
  result_of (parmap_comprehension cpu_count fn args) = list_map (fun _ => fn x) args.
Proof.
  intros Hlast.
  assert (Hpos : (1 <= length args)%nat) by (destruct args; [discriminate|simpl; lia]).
  unfold parmap_comprehension.
  rewrite ConcurrencyFacts.comprehension_lambda_spec by (simpl; lia).
  rewrite (comprehension_store args x [] ltac:(simpl; lia) Hlast).
  unfold parallelize_with_threads. rewrite length_map. simpl.
  unfold ThreadPoolExecutor.
  pose proof (ConcurrencyFacts.MAX_PROCS_pos cpu_count) as Hprocs.
  destruct (Z.leb_spec (Z.min (Z.of_nat (length args)) (MAX_PROCS cpu_count)) 0); [lia|].
  simpl. rewrite map_map. unfold submit, thunk. simpl.
  assert (E : forall l : list T,
             list_map future_result (map (fun _ : T => fn x) l)
             = list_map (fun _ => fn x) l).
  { induction l as [|a l IH]; simpl; [reflexivity|].
    unfold future_result at 1. destruct (fn x); simpl; [|reflexivity].
    rewrite IH. reflexivity. }
  rewrite E. destruct (list_map (fun _ => fn x) args); reflexivity.
Qed.

End Engine.

Import Examples.

Lemma parmap_raises_first_failure_witness :
  (Forall (fun a => returns (checked_double a) = true) [1; 2]
   /\ checked_double (-3) = Raised (ValueError "negative"))
  /\ parmap 4 checked_double [1; 2; -3; 4; -5]
     = ([Debug "Starting tasks" 5], Raised (ValueError "negative")).
Proof.
  assert (Hpre : Forall (fun a => returns (checked_double a) = true) [1; 2])
    by (repeat constructor).
  split; [split; [exact Hpre|reflexivity]|].
  exact (parmap_raises_first_failure 4 checked_double [1; 2] (-3) [4; -5]
           (ValueError "negative") Hpre eq_refl).
Defined.

Lemma batched_parmap_any_batch_size_witness :
  (1 <= 4 /\ 1 <= 7)
  /\ result_of (batched_parmap 4 double fifteen 4)
     = result_of (batched_parmap 4 double fifteen 7).
Proof.
  split; [lia|].
  exact (proj1 (batched_parmap_any_batch_size 4 double fifteen 4 7
                  ltac:(lia) ltac:(lia))).
Defined.

Lemma batched_parmap_pools_witness :
  1 <= 4
  /\ Z.of_nat (length (log_of (batched_parmap 4 double fifteen 4))) = (15 + 4 - 1) / 4.
Proof.
  split; [lia|].
  exact (proj1 (proj2 (proj2 (batched_parmap_pools 4 double fifteen 4 ltac:(lia)))
                  _ eq_refl)).
Defined.

Lemma batches_full_but_last_witness :
  (1 <= 4
   /\ batches fifteen 4
      = Returned ([[1; 2; 3; 4]; [5; 6; 7; 8]; [9; 10; 11; 12]] ++ [[13; 14; 15]]))
  /\ Forall (fun b => Z.of_nat (length b) = 4)
            [[1; 2; 3; 4]; [5; 6; 7; 8]; [9; 10; 11; 12]].
Proof.
  split; [split; [lia|reflexivity]|].
  exact (proj1 (batches_full_but_last fifteen 4
                  [[1; 2; 3; 4]; [5; 6; 7; 8]; [9; 10; 11; 12]] [13; 14; 15]
                  ltac:(lia) eq_refl)).
Defined.

Lemma batched_parmap_stops_at_failing_batch_witness :
  (1 <= 2
   /\ batches [1; 2; 3; 4; -5; 6; 7] 2 = Returned ([[1; 2]; [3; 4]] ++ [-5; 6] :: [[7]])
   /\ list_map checked_double (concat [[1; 2]; [3; 4]]) = Returned [2; 4; 6; 8]
   /\ list_map checked_double [-5; 6] = Raised (ValueError "negative"))
  /\ batched_parmap 4 checked_double [1; 2; 3; 4; -5; 6; 7] 2
     = ([Debug "Starting tasks" 2; Debug "Starting tasks" 2; Debug "Starting tasks" 2],
        Raised (ValueError "negative")).
Proof.
  split; [split; [lia|repeat split]|].
  exact (batched_parmap_stops_at_failing_batch 4 checked_double [1; 2; 3; 4; -5; 6; 7] 2
           [[1; 2]; [3; 4]] [-5; 6] [[7]] [2; 4; 6; 8] (ValueError "negative")
           ltac:(lia) eq_refl eq_refl eq_refl).
Defined.

Lemma batched_parmap_single_batch_witness :
  (fifteen <> [] /\ Z.of_nat (length fifteen) <= 15)
  /\ batched_parmap 4 double fifteen 15 = parmap 4 double fifteen.
Proof.
  split; [split; [discriminate|simpl; lia]|].
  exact (batched_parmap_single_batch 4 double fifteen 15
           ltac:(discriminate) ltac:(simpl; lia)).
Defined.

Lemma comprehension_computes_last_witness :
  last [1; 2; 3] = Some 3
  /\ result_of (parmap_comprehension 4 double [1; 2; 3]) = Returned [6; 6; 6].
Proof.
  split; [reflexivity|].
  exact (comprehension_computes_last 4 double [1; 2; 3] 3 eq_refl).
Defined.

End EngineExtras.

(** * Further properties of the metadata pipeline *)
Module PipelineExtras.

Import Concurrency MetadataPipeline EngineReference Reference.

Section Resolution.
Variables RawData Metadata : Type.
Implicit Types (self : Pipeline RawData Metadata) (token : Token)
  (raw_data : RawData) (ps pre post : list (Parser RawData Metadata))
  (p q : Parser RawData Metadata)
  (sel : option (Selector Metadata)) (f : Selector Metadata)
  (possible_metadatas : list (Outcome Metadata)).

(** The loop calls the parsers of a prefix of the chain, as a full walk
    of that prefix would. *)
Lemma parsers_loop_log_prefix token raw_data sel ps k possible_metadatas :
  exists n : nat,
    log_of (parsers_loop token raw_data sel k ps possible_metadatas)
    = chain_calls token raw_data k (take n ps).
Proof.
  revert k possible_metadatas.
  induction ps as [|p ps IH]; intros k possible_metadatas; simpl.
  - exists 0%nat. reflexivity.
  - unfold call_should_parse_token, call_parse_metadata, applicable. simpl.
    destruct (should_parse_token p token raw_data) eqn:Happ; simpl.
    + destruct (parse_metadata p token raw_data) as [m|e]; simpl.
      * destruct sel as [f|]; simpl.
        -- destruct (IH (S k) (possible_metadatas ++ [IsMetadata m])) as [n Hn].
           destruct (parsers_loop token raw_data (Some f) (S k) ps _) as [l r].
           simpl in *. exists (S n). simpl. unfold applicable. rewrite Happ, Hn.
           reflexivity.
        -- exists 1%nat. simpl. unfold applicable. rewrite Happ. destruct ps; reflexivity.
      * destruct (IH (S k) (possible_metadatas
                            ++ [IsError (from_token_and_error token e)])) as [n Hn].
        destruct (parsers_loop token raw_data sel (S k) ps _) as [l r].
        simpl in *. exists (S n). simpl. unfold applicable. rewrite Happ, Hn.
        reflexivity.
    + destruct (IH (S k) possible_metadatas) as [n Hn].
      destruct (parsers_loop token raw_data sel (S k) ps _) as [l r].
      simpl in *. exists (S n). simpl. unfold applicable. rewrite Happ, Hn.
      reflexivity.
Qed.

(** Without a policy, the loop returns at the first applicable parser
    that succeeds and otherwise leaves the candidates of the chain. *)
Lemma parsers_loop_default token raw_data ps k possible_metadatas :
  result_of (parsers_loop token raw_data None k ps possible_metadatas)
  = Returned
      (match List.find (succeeds token raw_data)
                       (List.filter (applicable token raw_data) ps) with
       | Some p => Return (candidate token raw_data p)
       | None => Exhausted (possible_metadatas ++ candidates token raw_data ps)
       end).
Proof.
  revert k possible_metadatas.
  induction ps as [|p ps IH]; intros k possible_metadatas; simpl.
  - unfold candidates. simpl. rewrite app_nil_r. reflexivity.
  - unfold call_should_parse_token, call_parse_metadata, candidates, applicable,
      succeeds, candidate in *. simpl.
    destruct (should_parse_token p token raw_data); simpl.
    + destruct (parse_metadata p token raw_data) as [m|e] eqn:E; simpl; rewrite ?E;
        simpl; [reflexivity|].
      specialize (IH (S k) (possible_metadatas ++ [IsError (from_token_and_error token e)])).
      destruct (parsers_loop token raw_data None (S k) ps _) as [l r]. simpl in *.
      rewrite IH. destruct (List.find _ _); [reflexivity|].
      rewrite <- app_assoc. reflexivity.
    + specialize (IH (S k) possible_metadatas).
      destruct (parsers_loop token raw_data None (S k) ps _) as [l r]. simpl in *.
      exact IH.
Qed.

Lemma fetch_token_metadata_default self token raw_data :
  fetch_content (fetcher self) (uri token) = Returned raw_data ->
  result_of (fetch_token_metadata self token None)
  = Returned (default_outcome token raw_data (parsers self)).
Proof.
  intros Hfetch. unfold fetch_token_metadata, call_fetch_content. simpl.
  rewrite Hfetch.
  pose proof (parsers_loop_default token raw_data (parsers self) 0 []) as Hloop.
  destruct (parsers_loop token raw_data None 0 (parsers self) []) as [l r].
  simpl in Hloop. subst r. unfold default_outcome.
  destruct (List.find _ _); simpl; [reflexivity|].
  destruct (candidates token raw_data (parsers self)); reflexivity.
Qed.

Lemma candidate_names_token token raw_data p (t : Token) :
  outcome_token (candidate token raw_data p) = Some t -> t = token.
Proof.
  unfold candidate. destruct (parse_metadata p token raw_data); simpl; congruence.
Qed.

Lemma candidate_is_metadata token raw_data p (m : Metadata) :
  candidate token raw_data p = IsMetadata m ->
  parse_metadata p token raw_data = Returned m.
Proof.
  unfold candidate. destruct (parse_metadata p token raw_data); congruence.
Qed.

(** The default outcome is the no-parser error of the token or the
    candidate of an applicable parser of the chain. *)
Lemma default_outcome_origin token raw_data ps :
  default_outcome token raw_data ps = no_parsers_found token
  \/ exists p, p ∈ ps /\ applicable token raw_data p = true
               /\ default_outcome token raw_data ps = candidate token raw_data p.
Proof.
  unfold default_outcome.
  destruct (List.find _ _) as [p|] eqn:Hfind.
  - right. apply List.find_some in Hfind as [Hin _].
    apply List.filter_In in Hin as [Hin Happ].
    exists p. rewrite list_elem_of_In. auto.
  - unfold candidates.
    destruct (List.filter (applicable token raw_data) ps) as [|p l] eqn:Hf; simpl;
      [left; reflexivity|].
    right. assert (Hin : List.In p (List.filter (applicable token raw_data) ps))
      by (rewrite Hf; left; reflexivity).
    apply List.filter_In in Hin as [Hin Happ].
    exists p. rewrite list_elem_of_In. auto.
Qed.

Lemma resolve_returned_fetch self token sel (o : Outcome Metadata) :
  result_of (fetch_token_metadata self token sel) = Returned o ->
  exists raw_data, fetch_content (fetcher self) (uri token) = Returned raw_data.
Proof.
  intros Hres.
  destruct (fetch_content (fetcher self) (uri token)) as [raw_data|e] eqn:Hfetch.
  - eexists. reflexivity.
  - rewrite (PipelineFacts.fetch_token_metadata_raised _ _ self token sel e Hfetch) in Hres.
    discriminate.
Qed.

Lemma default_result_names_token self token (o : Outcome Metadata) (t : Token) :
  result_of (fetch_token_metadata self token None) = Returned o ->
  outcome_token o = Some t -> t = token.
Proof.
  intros Hres Ht.
  destruct (resolve_returned_fetch self token None o Hres) as [raw_data Hfetch].
  rewrite (fetch_token_metadata_default self token raw_data Hfetch) in Hres.
  injection Hres as <-.
  destruct (default_outcome_origin token raw_data (parsers self))
    as [E|(p & _ & _ & E)]; rewrite E in Ht.
  - simpl in Ht. congruence.
  - eapply candidate_names_token. exact Ht.
Qed.


(** X9. Without a selection policy the outcome of a token whose content
    is retrieved is: the result of the first applicable parser, in chain
    order, whose interpretation succeeds; when there is none, the error of
    the first applicable parser; when no parser applies, the error
    [No parsers found.]. *)
Theorem default_resolution self token raw_data :
  fetch_content (fetcher self) (uri token) = Returned raw_data ->
  result_of (fetch_token_metadata self token None)
  = Returned (default_outcome token raw_data (parsers self)).
Proof. exact (fetch_token_metadata_default self token raw_data). Qed.

(** X10. Without a selection policy, an error returned for a token names
    that token, and a metadata returned for it is what an applicable parser
    of the chain produced from the content fetched for it. *)
Theorem default_outcome_provenance self token (o : Outcome Metadata) :
  result_of (fetch_token_metadata self token None) = Returned o ->
  (forall t, outcome_token o = Some t -> t = token)
  /\ (forall m : Metadata, o = IsMetadata m ->
        exists raw_data p,
          fetch_content (fetcher self) (uri token) = Returned raw_data
          /\ p ∈ parsers self
          /\ should_parse_token p token raw_data = true
          /\ parse_metadata p token raw_data = Returned m).
Proof.
  intros Hres. split.
  - intros t. apply (default_result_names_token self token o t Hres).
  - intros m ->.
    destruct (resolve_returned_fetch self token None _ Hres) as [raw_data Hfetch].
    rewrite (fetch_token_metadata_default self token raw_data Hfetch) in Hres.
    injection Hres as Hres.
    destruct (default_outcome_origin token raw_data (parsers self))
      as [E|(p & Hin & Happ & E)]; rewrite E in Hres.
    + discriminate.
    + exists raw_data, p. repeat split; try assumption.
      apply candidate_is_metadata. exact Hres.
Qed.

(** X11. Whatever the policy, in one resolution no parser is asked twice
    whether it applies, [parse_metadata] is called at most once per parser
    and only on a parser that was asked and answered that it applies (never
    on a parser whose [should_parse_token] is false), and no call is made
    to a position outside the chain. *)
Theorem parser_calls_are_guarded self token sel raw_data (j : nat) :
  fetch_content (fetcher self) (uri token) = Returned raw_data ->
  (count (is_should_parse_of j) (log_of (fetch_token_metadata self token sel)) <= 1)%nat
  /\ (count (is_parse_of j) (log_of (fetch_token_metadata self token sel))
      <= count (is_should_parse_of j) (log_of (fetch_token_metadata self token sel)))%nat
  /\ (forall p, parsers self !! j = Some p ->
        should_parse_token p token raw_data = false ->
        count (is_parse_of j) (log_of (fetch_token_metadata self token sel)) = 0%nat)
  /\ (parsers self !! j = None ->
        count (is_should_parse_of j) (log_of (fetch_token_metadata self token sel)) = 0%nat).
Proof.
  intros Hfetch.
  assert (Hlog : exists n tail,
             log_of (fetch_token_metadata self token sel)
             = FetchContent (uri token)
                 :: chain_calls token raw_data 0 (take n (parsers self)) ++ tail
             /\ (tail = [] \/ exists cs, tail = [SelectorFn cs])).
  { unfold fetch_token_metadata, call_fetch_content. simpl. rewrite Hfetch.
    destruct (parsers_loop_log_prefix token raw_data sel (parsers self) 0 []) as [n Hn].
    destruct (PipelineFacts.parsers_loop_total _ _ token raw_data sel (parsers self) 0 [])
      as (l & ex & E & _).
    rewrite E in *. simpl in Hn. subst l.
    destruct ex as [o|possible_metadatas]; simpl.
    - exists n, []. split; [reflexivity|left; reflexivity].
    - destruct sel as [f|]; simpl.
      + exists n. eexists. split; [reflexivity|]. right. eexists. reflexivity.
      + exists n, []. destruct possible_metadatas; simpl;
          (split; [reflexivity|left; reflexivity]). }
  destruct Hlog as (n & tail & -> & Htail).
  destruct (PipelineFacts.chain_calls_count _ _ token raw_data 0 (take n (parsers self)) j)
    as [H1 H2].
  simpl in H1, H2. simpl.
  rewrite !PipelineFacts.count_app, H1, H2.
  assert (Ht : count (is_should_parse_of j) tail = 0%nat
               /\ count (is_parse_of j) tail = 0%nat)
    by (destruct Htail as [->|[cs ->]]; split; reflexivity).
  destruct Ht as [-> ->]. rewrite !Nat.add_0_r.
  destruct (take n (parsers self) !! j) as [p|] eqn:Hp.
  - apply lookup_take_Some in Hp as [Hp _].
    repeat split.
    + lia.
    + destruct (applicable token raw_data p); lia.
    + intros p' Hp' Happ. rewrite Hp in Hp'. injection Hp' as <-.
      unfold applicable. rewrite Happ. reflexivity.
    + intros Hnone. congruence.
  - repeat split; try lia.
Qed.

(** **** Batches of tokens *)




(** X15. Sequential, [run] starts no pool. Parallel, every pool it starts
    has between one and fifteen tasks, and when it returns it has started
    as many pools as the number of tokens divided by fifteen, rounded up. *)
Theorem run_pools (cpu_count : nat) self (tokens : list Token) sel :
  log_of (run cpu_count self tokens false sel) = []
  /\ Forall (fun r => 1 <= num_tasks r <= 15)
            (log_of (run cpu_count self tokens true sel))
  /\ (forall outcomes,
        result_of (run cpu_count self tokens true sel) = Returned outcomes ->
        Z.of_nat (length (log_of (run cpu_count self tokens true sel)))
        = (Z.of_nat (length tokens) + 14) / 15).
Proof.
  split; [unfold run; destruct tokens; reflexivity|].
  destruct tokens as [|t tokens].
  - split; [constructor|]. intros _ _. reflexivity.
  - change (run cpu_count self (t :: tokens) true sel)
      with (batched_parmap cpu_count (resolve self sel) (t :: tokens) 15).
    destruct (EngineExtras.batched_parmap_log_shape cpu_count (resolve self sel)
                (t :: tokens) 15 ltac:(lia)) as (Hall & _ & Hret).
    split.
    + eapply Forall_impl; [exact Hall|]. simpl. tauto.
    + intros outcomes Hres. destruct (Hret outcomes Hres) as [Hn _].
      rewrite Hn. f_equal. lia.
Qed.


End Resolution.

Import Examples.


Lemma default_resolution_witness :
  fetch_content (fetcher sample_pipeline) (uri T3) = Returned "data:three"
  /\ result_of (fetch_token_metadata sample_pipeline T3 None)
     = Returned (IsMetadata "second:data:three").
Proof.
  split; [reflexivity|].
  exact (default_resolution string string sample_pipeline T3 "data:three" eq_refl).
Defined.

Lemma default_outcome_provenance_witness :
  result_of (fetch_token_metadata failing_pipeline T1 None)
  = Returned (IsError (from_token_and_error T1 (Exception "not json")))
  /\ (forall t,
        outcome_token (IsError (Metadata := string)
                         (from_token_and_error T1 (Exception "not json"))) = Some t ->
        t = T1).
Proof.
  split; [reflexivity|].
  exact (proj1 (default_outcome_provenance string string failing_pipeline T1 _ eq_refl)).
Defined.

Lemma parser_calls_are_guarded_witness :
  fetch_content (fetcher sample_pipeline) (uri T4) = Returned "ar://four"
  /\ count (is_parse_of 0)
       (log_of (fetch_token_metadata sample_pipeline T4 (Some last_candidate))) = 0%nat.
Proof.
  split; [reflexivity|].
  exact (proj1 (proj2 (proj2 (parser_calls_are_guarded string string sample_pipeline T4
                                (Some last_candidate) "ar://four" 0 eq_refl)))
           first_parser eq_refl eq_refl).
Defined.


Lemma run_pools_witness :
  result_of (run 4 sample_pipeline [T1; T3; T4] true None)
  = Returned [IsMetadata "first:ipfs://one"; IsMetadata "second:data:three";
              no_parsers_found T4]
  /\ Z.of_nat (length (log_of (run 4 sample_pipeline [T1; T3; T4] true None)))
     = (3 + 14) / 15.
Proof.
  split; [reflexivity|].
  exact (proj2 (proj2 (run_pools string string 4 sample_pipeline [T1; T3; T4] None))
           _ eq_refl).
Defined.


End PipelineExtras.

(** * Properties of the construction of a pipeline *)
Module ConstructionFacts.

Import MetadataPipeline Construction.

Lemma existsb_eqb_elem_of (s : string) (l : list string) :
  existsb (String.eqb s) l = true <-> s ∈ l.
Proof.
  rewrite List.existsb_exists. rewrite list_elem_of_In. split.
  - intros (x & Hin & Heq). apply String.eqb_eq in Heq. subst. exact Hin.
  - intros Hin. exists s. split; [exact Hin|apply String.eqb_refl].
Qed.

Lemma mount_adapter_lookup (a : Adapter) (url_prefixes : list string)
  (registry : gmap string Adapter) (s : string) :
  mount_adapter a url_prefixes registry !! s
  = if decide (s ∈ url_prefixes) then Some a else registry !! s.
Proof.
  revert registry. induction url_prefixes as [|x l IH]; intros registry; simpl.
  - destruct (decide (s ∈ [])) as [H|_]; [inversion H|reflexivity].
  - rewrite IH. unfold register_adapter.
    destruct (decide (s ∈ l)) as [Hl|Hl].
    + rewrite decide_True by (right; exact Hl). reflexivity.
    + destruct (decide (x = s)) as [->|Hne].
      * rewrite decide_True by left. apply lookup_insert_eq.
      * rewrite decide_False by (intros H; apply elem_of_cons in H as [->|H]; auto).
        apply lookup_insert_ne. exact Hne.
Qed.

Lemma mount_all_snoc (adapter_configs : list AdapterConfig) (c : AdapterConfig)
  (registry : gmap string Adapter) :
  mount_all (adapter_configs ++ [c]) registry
  = mount_adapter (adapter c) (mount_prefixes c) (mount_all adapter_configs registry).
Proof.
  revert registry. induction adapter_configs as [|c' l IH]; intros registry; simpl;
    [reflexivity|]. apply IH.
Qed.

Lemma mount_all_lookup (adapter_configs : list AdapterConfig)
  (registry : gmap string Adapter) (s : string) :
  mount_all adapter_configs registry !! s
  = match last_adapter_for s adapter_configs with
    | Some a => Some a
    | None => registry !! s
    end.
Proof.
  induction adapter_configs as [|c l IH] using rev_ind.
  - reflexivity.
  - rewrite mount_all_snoc, mount_adapter_lookup. unfold last_adapter_for in *.
    rewrite rev_unit. simpl.
    destruct (decide (s ∈ mount_prefixes c)) as [Hin|Hout].
    + apply existsb_eqb_elem_of in Hin. rewrite Hin. reflexivity.
    + destruct (existsb (String.eqb s) (mount_prefixes c)) eqn:E.
      * apply existsb_eqb_elem_of in E. contradiction.
      * exact IH.
Qed.

(** X17. After [mount_adapter], every prefix of the list is bound to the
    adapter and every other prefix keeps the binding it had; mounting the
    same adapter on the same prefixes again changes nothing. *)
Theorem mount_adapter_binds (a : Adapter) (url_prefixes : list string)
  (registry : gmap string Adapter) :
  (forall s, s ∈ url_prefixes -> mount_adapter a url_prefixes registry !! s = Some a)
  /\ (forall s, s ∉ url_prefixes ->
        mount_adapter a url_prefixes registry !! s = registry !! s)
  /\ mount_adapter a url_prefixes (mount_adapter a url_prefixes registry)
     = mount_adapter a url_prefixes registry.
Proof.
  split; [|split].
  - intros s Hin. rewrite mount_adapter_lookup, decide_True by exact Hin. reflexivity.
  - intros s Hout. rewrite mount_adapter_lookup, decide_False by exact Hout. reflexivity.
  - apply map_eq. intros s. rewrite !mount_adapter_lookup.
    destruct (decide (s ∈ url_prefixes)); reflexivity.
Qed.

Lemma mount_adapter_binds_witness :
  ("ipfs://" ∈ ["ipfs://"; "https://ipfs.io/"] /\ "data:" ∉ ["ipfs://"; "https://ipfs.io/"])
  /\ mount_adapter (IPFSAdapter 100 1000 0) ["ipfs://"; "https://ipfs.io/"]
       {["data:" := DataURIAdapter]} !! "ipfs://" = Some (IPFSAdapter 100 1000 0)
  /\ mount_adapter (IPFSAdapter 100 1000 0) ["ipfs://"; "https://ipfs.io/"]
       {["data:" := DataURIAdapter]} !! "data:" = Some DataURIAdapter.
Proof.
  assert (Hin : "ipfs://" ∈ ["ipfs://"; "https://ipfs.io/"]) by (repeat constructor).
  assert (Hout : "data:" ∉ ["ipfs://"; "https://ipfs.io/"]).
  { rewrite list_elem_of_In. simpl. intuition discriminate. }
  split; [split; assumption|]. split.
  - exact (proj1 (mount_adapter_binds (IPFSAdapter 100 1000 0)
                    ["ipfs://"; "https://ipfs.io/"] {["data:" := DataURIAdapter]})
             "ipfs://" Hin).
  - rewrite (proj1 (proj2 (mount_adapter_binds (IPFSAdapter 100 1000 0)
                             ["ipfs://"; "https://ipfs.io/"]
                             {["data:" := DataURIAdapter]})) "data:" Hout).
    reflexivity.
Defined.

Section Init.
Variables RawData Metadata : Type.
Variable MetadataFetcher : Fetcher RawData.
Variable DEFAULT_PARSER_CLASSES : list (Fetcher RawData -> Parser RawData Metadata).

(** X18. After the constructor, a prefix is bound to the adapter of the
    last configuration that lists it, in the order of [adapter_configs];
    a prefix no configuration lists keeps the binding the fetcher had. The
    fetcher and the parsers given to the constructor have no part in it. *)
Theorem init_last_configuration_wins (fetcher : option (Fetcher RawData))
  (parsers : option (list (Parser RawData Metadata)))
  (adapter_configs : list AdapterConfig) (registry : gmap string Adapter) (s : string) :
  snd (init RawData Metadata MetadataFetcher DEFAULT_PARSER_CLASSES fetcher parsers
         (Some adapter_configs) registry) !! s
  = match last_adapter_for s adapter_configs with
    | Some a => Some a
    | None => registry !! s
    end.
Proof. unfold init. simpl. apply mount_all_lookup. Qed.

(** X19. Built without [adapter_configs] on a fetcher without bindings,
    a pipeline has exactly seven prefixes bound: [ar://] to the ARWeave
    adapter, [data:] to the data URI adapter, [https://] and [http://] to
    the HTTP adapter, [ipfs://], [https://gateway.pinata.cloud/] and
    [https://ipfs.io/] to the IPFS adapter. No prefix is listed twice, so
    no default adapter replaces another. *)
Theorem init_default_registry (fetcher : option (Fetcher RawData))
  (parsers : option (list (Parser RawData Metadata))) :
  snd (init RawData Metadata MetadataFetcher DEFAULT_PARSER_CLASSES fetcher parsers
         None ∅)
  = list_to_map
      [("ar://", ARWeaveAdapter 100 1000 0);
       ("data:", DataURIAdapter);
       ("https://", HTTPAdapter 100 1000 0);
       ("http://", HTTPAdapter 100 1000 0);
       ("ipfs://", IPFSAdapter 100 1000 0);
       ("https://gateway.pinata.cloud/", IPFSAdapter 100 1000 0);
       ("https://ipfs.io/", IPFSAdapter 100 1000 0)]
  /\ size (snd (init RawData Metadata MetadataFetcher DEFAULT_PARSER_CLASSES fetcher
                  parsers None ∅)) = 7%nat
  /\ NoDup (concat (map mount_prefixes DEFAULT_ADAPTER_CONFIGS)).
Proof.
  unfold init. simpl. split; [|split].
  - vm_compute. reflexivity.
  - vm_compute. reflexivity.
  - apply NoDup_ListNoDup. vm_compute.
    repeat (constructor; [simpl; intuition discriminate|]). constructor.
Qed.

End Init.

End ConstructionFacts.

(** * Properties of the collection addresses *)
Module AddressFacts.

Import Addresses.

(** X20. Looking a member up by its value gives the member back, and a
    text is the value of the member its lookup returns: no two members
    share a value, so none is an alias of another. A text that is the value
    of no member raises [ValueError]. *)
Theorem of_value_round_trip :
  (forall a, of_value (value a) = Returned a)
  /\ (forall s a, of_value s = Returned a -> s = value a)
  /\ (forall s, (forall a, value a <> s) -> returns (of_value s) = false).
Proof.
  split; [|split].
  - intros []; reflexivity.
  - intros s a. unfold of_value.
    destruct (List.find _ members) as [m|] eqn:Hfind; [|discriminate].
    intros H. injection H as <-.
    apply List.find_some in Hfind as [_ Heq]. apply String.eqb_eq in Heq.
    symmetry. exact Heq.
  - intros s Hs. unfold of_value.
    destruct (List.find _ members) as [m|] eqn:Hfind; [|reflexivity].
    apply List.find_some in Hfind as [_ Heq]. apply String.eqb_eq in Heq.
    destruct (Hs m Heq).
Qed.

Lemma of_value_round_trip_witness :
  of_value "0x9C8fF314C9Bc7F6e59A9d9225Fb22946427eDC03" = Returned NOUNS
  /\ "0x9C8fF314C9Bc7F6e59A9d9225Fb22946427eDC03" = value NOUNS.
Proof.
  split; [reflexivity|].
  exact (proj1 (proj2 of_value_round_trip)
           "0x9C8fF314C9Bc7F6e59A9d9225Fb22946427eDC03" NOUNS eq_refl).
Defined.

(** X21. Every value is written as a contract address, [0x] followed by
    forty hexadecimal digits, and the values stay pairwise distinct when
    compared without regard to case. *)
Theorem values_are_distinct_addresses :
  (forall a, is_address (value a) = true)
  /\ (forall a b, lower (value a) = lower (value b) -> a = b).
Proof.
  split.
  - intros []; vm_compute; reflexivity.
  - intros [] []; vm_compute; intros H; try reflexivity; discriminate H.
Qed.

End AddressFacts.
